(** * VictoryLine: gap-aware segmentation and per-element layout

    A shallow embedding of [src/components/victory-line/victory-line.jsx]
    (class [VictoryLine]) and of [src/components/shared/label.jsx]
    (class [Label]).

    JavaScript values are an inductive type; objects are finite maps from
    property names to values; numbers are integers.  The collaborators that
    live outside the two files (lodash, victory-core's [Helpers], the chart's
    [Data], [Domain] and [Scale] helpers, React) are either modelled by their
    documented behaviour (lodash) or taken as interfaces (type classes).
    A method that can throw returns a [result]. *)

From stdpp Require Import base option list sorting gmap strings pretty.
From Stdlib Require Import ZArith Lia.

Open Scope Z_scope.
Open Scope string_scope.
Open Scope list_scope.

Set Warnings "-register-all".

(** ** JavaScript values *)

Module JS.

(** A function value is opaque: it is named, and what it computes is given by
    the collaborator that calls it. *)
Inductive value : Type :=
| VUndefined
| VNull
| VBool (b : bool)
| VNum (n : Z)
| VStr (s : string)
| VFunction (name : string)
| VArr (elems : list value)
| VObj (fields : gmap string value).

Abbreviation obj := (gmap string value).

(** ToBoolean: [undefined], [null], [false], [0] and the empty string are
    falsy, everything else (objects and arrays included) is truthy. *)
Definition truthy (v : value) : bool :=
  match v with
  | VUndefined | VNull => false
  | VBool b => b
  | VNum n => negb (n =? 0)%Z
  | VStr s => negb (String.eqb s "")
  | VFunction _ | VArr _ | VObj _ => true
  end.

(** [a || b] *)
Definition or_else (a b : value) : value := if truthy a then a else b.

(** The characters of a string, each a string of its own. *)
Fixpoint string_chars (s : string) : list value :=
  match s with
  | EmptyString => []
  | String a s' => VStr (String a EmptyString) :: string_chars s'
  end.

(** The elements of an array or the characters of a string under their
    indices ["0"], ["1"], ... *)
Definition indexed (l : list value) : gmap string value :=
  list_to_map (imap (fun i v => (pretty i, v)) l).

(** The own enumerable properties of a value: the fields of an object, the
    indexed elements of an array, the indexed characters of a string; the
    other values have none. *)
Definition own_props (v : value) : obj :=
  match v with
  | VObj o => o
  | VArr l => indexed l
  | VStr s => indexed (string_chars s)
  | _ => ∅
  end.

(** Property read [o.k] on an object: a missing property reads as
    [undefined]. *)
Definition get (o : obj) (k : string) : value := default VUndefined (o !! k).

(** Property read [v.k] of an own enumerable property, on a value that is
    not [null] or [undefined]. *)
Definition getv (v : value) (k : string) : value := get (own_props v) k.

(** [v === null || typeof v === "undefined"] *)
Definition is_nullish (v : value) : bool :=
  match v with
  | VUndefined | VNull => true
  | _ => false
  end.

(** Exceptions raised by the language itself. *)
Inductive exn : Type :=
| TypeError (msg : string)
| ReferenceError (ident : string).

(** Computations that may throw. *)
Inductive result (A : Type) : Type :=
| Throw (e : exn)
| Ret (a : A).
Arguments Throw {A} e.
Arguments Ret {A} a.

#[export] Instance result_ret : MRet result := fun A a => Ret a.
#[export] Instance result_bind : MBind result := fun A B k m =>
  match m with
  | Throw e => Throw e
  | Ret a => k a
  end.

(** Property read [v.k] as the language evaluates it: reading a property of
    [null] or [undefined] throws a [TypeError]. *)
Definition getprop (v : value) (k : string) : result value :=
  if is_nullish v
  then Throw (TypeError ("Cannot read property '" ++ k ++ "' of null or undefined"))
  else Ret (getv v k).

End JS.

Export JS.

(** ** lodash *)

Module Lodash.

(** [_.assign(object, ...sources)]: every own enumerable property of every
    source is written to [object], sources from left to right, so a later
    source wins.  Sources that are [undefined] or [null] contribute nothing.
    The [object] of every call in the component is a fresh literal. *)
Definition assign2 (object source : obj) : obj := source ∪ object.

Definition assign (object : obj) (sources : list value) : obj :=
  foldl (fun o s => assign2 o (own_props s)) object sources.

(** [_.defaults(object, ...sources)]: a property of a source is written only
    where [object] has no such property or has it as [undefined]; once a
    property is set, later sources no longer change it. *)
Definition defaults_pick (o s : option value) : option value :=
  match o, s with
  | Some VUndefined, Some v => Some v
  | None, s => s
  | o, _ => o
  end.

Definition defaults2 (object source : obj) : obj := merge defaults_pick object source.

Definition defaults (object : obj) (sources : list value) : obj :=
  foldl (fun o s => defaults2 o (own_props s)) object sources.

(** A later source's property, when it has one, else the earlier one's. *)
Definition overrides (later earlier : option value) : option value :=
  match later with
  | Some v => Some v
  | None => earlier
  end.

End Lodash.

Export Lodash.

(** ** Data points *)

(** A point of the working dataset, as [Data.getData] hands it to the
    component: a resolved numeric [x], a [y] that may be [null] or
    [undefined] (a gap), and an optional [label]. *)
Record datum : Type := mkDatum {
  x : Z;
  y : value;
  label : value
}.

(** The datum seen as a JavaScript object (when it is stored in props). *)
Definition datum_value (d : datum) : value :=
  VObj (<["x" := VNum (x d)]> (<["y" := y d]> (<["label" := label d]> ∅))).

(** [datum.y === null || typeof datum.y === "undefined"] *)
Definition isGap (d : datum) : bool := is_nullish (y d).

(** ** The Segmenter *)

Module Segmenter.

(** [_.sortBy(dataset, "x")]: a stable ascending sort by the [x] field that
    returns a new array.  On a total order a stable sort has exactly one
    result (see [sortBy_x_unique]); it is computed here by insertion. *)
Fixpoint insert_by_x (d : datum) (l : list datum) : list datum :=
  match l with
  | [] => [d]
  | e :: l' => if (x d <=? x e)%Z then d :: e :: l' else e :: insert_by_x d l'
  end.

Definition sortBy_x (dataset : list datum) : list datum :=
  foldr insert_by_x [] dataset.

(** [array.slice(start, end)] for [0 <= start] and [end <= array.length];
    empty when [end <= start]. *)
Definition slice {A} (l : list A) (start stop : nat) : list A :=
  take (stop - start) (drop start l).

(** The body of the [forEach] callback, run over the elements from [index]
    on; the state is the [segments] array and [segmentStartIndex]. *)
Fixpoint forEach_scan (orderedData rest : list datum) (index : nat)
    (segments : list (list datum)) (segmentStartIndex : nat)
    : list (list datum) * nat :=
  match rest with
  | [] => (segments, segmentStartIndex)
  | datum :: rest' =>
      if isGap datum
      then forEach_scan orderedData rest' (S index)
             (segments ++ [slice orderedData segmentStartIndex index])
             (index + 1)%nat
      else forEach_scan orderedData rest' (S index) segments segmentStartIndex
  end.

Definition getDataSegments (dataset : list datum) : list (list datum) :=
  let orderedData := sortBy_x dataset in
  let '(segments, segmentStartIndex) :=
    forEach_scan orderedData orderedData 0 [] 0 in
  let segments :=
    segments ++ [slice orderedData segmentStartIndex (length orderedData)] in
  filter (fun segment : list datum => (0 < length segment)%nat) segments.


(** *** Vocabulary for the Segmenter's properties *)

(** Ascending order of the sort key. *)
Definition le_x (a b : datum) : Prop := (x a ≤ x b)%Z.

(** The points of [l] whose sort key is [k], in the order of [l]. *)
Definition with_key (k : Z) (l : list datum) : list datum :=
  filter (fun d => x d = k) l.

Definition nongap (d : datum) : Prop := isGap d = false.

(** The points that are not gaps, in order. *)
Definition without_gaps (l : list datum) : list datum := filter nongap l.

(** The segments before the final filter. *)
Definition raw_segments (orderedData : list datum) : list (list datum) :=
  (forEach_scan orderedData orderedData 0 [] 0).1 ++
  [slice orderedData (forEach_scan orderedData orderedData 0 [] 0).2
     (length orderedData)].

(** What the scan has established after the points [pre], with [rest] still
    to come: the closed segments hold no gap, and the open run
    [pre[start..]] holds no gap either. *)
Record scan_inv (pre : list datum) (segments : list (list datum))
    (start : nat) : Prop := {
  inv_start : (start ≤ length pre)%nat;
  inv_run : Forall nongap (drop start pre);
  inv_closed : Forall (Forall nongap) segments;
  inv_concat : concat segments ++ drop start pre = without_gaps pre
}.

End Segmenter.

Export Segmenter.

(** ** The Segmenter on a store

    Arrays are mutable objects.  To state what [getDataSegments] does to the
    array it is given, the same function is written over a store of array
    cells: [sortBy], [slice] and [filter] allocate a new array, [push] writes
    to the array it is called on.  Data points are only read ([datum.y], and
    [x] as the sort key). *)

Module Store.

Definition loc := nat.

Inductive cell : Type :=
| DataArray (elems : list datum)
| RefArray (elems : list loc).

Abbreviation store := (list cell).

(** A computation on the store; [None] when a reference that is read is not
    an array of the expected kind. *)
Definition M (A : Type) : Type := store → option (A * store).

#[export] Instance M_ret : MRet M := fun A a h => Some (a, h).
#[export] Instance M_bind : MBind M := fun A B k m h =>
  match m h with
  | Some (a, h') => k a h'
  | None => None
  end.

Definition alloc (c : cell) : M loc := fun h => Some (length h, h ++ [c]).

Definition read_data (l : loc) : M (list datum) := fun h =>
  match h !! l with
  | Some (DataArray elems) => Some (elems, h)
  | _ => None
  end.

Definition read_refs (l : loc) : M (list loc) := fun h =>
  match h !! l with
  | Some (RefArray elems) => Some (elems, h)
  | _ => None
  end.

(** [array.push(r)] *)
Definition push (l : loc) (r : loc) : M unit := fun h =>
  match h !! l with
  | Some (RefArray elems) => Some (tt, <[l := RefArray (elems ++ [r])]> h)
  | _ => None
  end.

(** [_.sortBy(dataset, "x")] *)
Definition sortBy_store (dataset : loc) : M loc :=
  elems ← read_data dataset; alloc (DataArray (sortBy_x elems)).

(** [array.slice(start, end)] *)
Definition slice_store (array : loc) (start stop : nat) : M loc :=
  elems ← read_data array; alloc (DataArray (slice elems start stop)).

(** [Array.isArray(segment) && segment.length > 0] *)
Definition nonempty_array (segment : loc) : M bool := fun h =>
  match h !! segment with
  | Some (DataArray elems) => Some (bool_decide (0 < length elems)%nat, h)
  | Some (RefArray elems) => Some (bool_decide (0 < length elems)%nat, h)
  | None => None
  end.

Fixpoint filter_refs (refs : list loc) : M (list loc) :=
  match refs with
  | [] => mret []
  | r :: refs' =>
      keep ← nonempty_array r;
      kept ← filter_refs refs';
      mret (if keep : bool then r :: kept else kept)
  end.

(** [segments.filter(...)] *)
Definition filter_store (segments : loc) : M loc :=
  refs ← read_refs segments;
  kept ← filter_refs refs;
  alloc (RefArray kept).

Fixpoint forEach_store (orderedData segments : loc) (rest : list datum)
    (index segmentStartIndex : nat) : M nat :=
  match rest with
  | [] => mret segmentStartIndex
  | datum :: rest' =>
      if isGap datum
      then
        s ← slice_store orderedData segmentStartIndex index;
        _ ← push segments s;
        forEach_store orderedData segments rest' (S index) (index + 1)%nat
      else forEach_store orderedData segments rest' (S index) segmentStartIndex
  end.

Definition getDataSegments_store (dataset : loc) : M loc :=
  orderedData ← sortBy_store dataset;
  segments ← alloc (RefArray []);
  elems ← read_data orderedData;
  segmentStartIndex ← forEach_store orderedData segments elems 0 0;
  s ← slice_store orderedData segmentStartIndex (length elems);
  _ ← push segments s;
  filter_store segments.

(** The contents of an array of segments. *)
Definition read_segments (h : store) (r : loc) : option (list (list datum)) :=
  match h !! r with
  | Some (RefArray refs) =>
      mapM (fun s => match h !! s with
                     | Some (DataArray elems) => Some elems
                     | _ => None
                     end) refs
  | _ => None
  end.


(** The store during the scan: the store [h] it started from, then the
    sorted array, then the [segments] array, then the segments pushed so
    far, each in a cell of its own and referenced in order. *)
Definition scanning (h : store) (orderedData : list datum)
    (segments : list (list datum)) : store :=
  h ++ DataArray orderedData
    :: RefArray (seq (length h + 2)%nat (length segments))
    :: (DataArray <$> segments).

(** The references of a store [h] that hold the segments [segs]. *)
Definition holds (h : store) (refs : list loc) (segs : list (list datum)) : Prop :=
  Forall2 (fun r s => h !! r = Some (DataArray s)) refs segs.

End Store.

(** ** The component: props, state, collaborators, output *)

(** An element handed in by the caller ([markerComponent], [labelComponent]):
    its type and its own props. *)
Record component : Type := mkComponent {
  ctype : string;
  cprops : obj
}.

(** The props the component reads itself.  [rest] holds the props that only
    the [Data], [Domain] and [Scale] helpers read ([data], [x], [y],
    [domain], [scale], [categories], [padding], [samples]). *)
Record Props : Type := mkProps {
  animate : value;
  events : obj;
  height : value;
  interpolation : value;
  labels : value;
  labelComponent : component;
  markerComponent : component;
  seriesLabel : value;
  standalone : value;
  style : value;
  width : value;
  rest : obj
}.

(** [this.state]: per index, what the event handlers returned. *)
Record State : Type := mkState {
  dataState : gmap nat value;
  markersState : gmap nat value;
  labelsState : gmap nat value
}.

(** The component instance, [this]. *)
Record This : Type := mkThis {
  props : Props;
  state : State
}.

(** [componentWillMount] *)
Definition componentWillMount (p : Props) : This :=
  {| props := p;
     state := {| dataState := ∅; markersState := ∅; labelsState := ∅ |} |}.

(** [state[index]] on one of the state objects. *)
Definition at_index (m : gmap nat value) (index : nat) : value :=
  default VUndefined (m !! index).

Record scales : Type := mkScales {
  scale_x : value → value;
  scale_y : value → value
}.

(** The style object the render methods read: [style.parent], [style.data],
    [style.labels], [style.line] and [style.markers].  [getStyles] builds the
    first four; [style.markers] then reads as [undefined]. *)
Record styles : Type := mkStyles {
  style_parent : obj;
  style_data : obj;
  style_labels : obj;
  style_line : obj;
  style_markers : value
}.

Record calculatedProps : Type := mkCalculated {
  dataset : list datum;
  dataSegments : list (list datum);
  scale : scales;
  calc_style : styles
}.

(** The props of one [LineSegment]. *)
Record lineProps : Type := mkLineProps {
  line_key : string;
  line_interpolation : value;
  line_style : obj;
  line_scale : scales;
  line_index : nat;
  line_data : list datum
}.

Inductive elementProps : Type :=
| OfLine (p : lineProps)
| OfObject (o : obj).

(** Modelled from the spec: victory-core's [Helpers], as far as the component
    calls it; the library is not among the sources, and the two laws record
    what its [evaluateStyle] does with the style it is given.  It reads the
    keys of the style: on [undefined] or [null] it throws a [TypeError]; on
    any other style it returns a style (the one it was given when that holds
    no function), never [undefined] or [null].  The functions a style or a
    prop holds are taken to return.  The handlers that [getEvents] builds are
    bound to the instance. *)
Class HelpersAPI : Type := {
  evaluateStyle : value → value → result value;
  evaluateStyle_nullish : ∀ style data,
    is_nullish style = true →
    ∃ msg, evaluateStyle style data = Throw (TypeError msg);
  evaluateStyle_returns : ∀ style data,
    is_nullish style = false →
    ∃ evaluated, evaluateStyle style data = Ret evaluated ∧
                 is_nullish evaluated = false;
  evaluateProp : value → value → value;
  getEvents : This → value → string → value;
  getPartialEvents : value → nat → elementProps → value;
  rangeT : Type;
  getRange : Props → string → rangeT
}.

(** The chart's own [Data], [Domain] and [Scale] helpers.  [buildScale p
    axis d r] is [Scale.getBaseScale(p, axis).domain(d).range(r)]. *)
Class ChartAPI `{HelpersAPI} : Type := {
  domainT : Type;
  getData : Props → list datum;
  getDomain : Props → string → domainT;
  buildScale : Props → string → domainT → rangeT → (value → value)
}.

(** The elements the component produces. *)
Inductive element : Type :=
| LineSegment (p : lineProps) (events : value)
| CloneElement (c : component) (config : obj)
| MarkerGroup (key : string) (marker label : element)
| LineLabel (key : string) (events : value) (data : list datum)
    (x y label style : value)
| DataGroup (style : obj) (line : list element)
    (markersAndLabels : list (option element)) (seriesLabel : option element)
| Group (style : obj) (child : element)
| Svg (style : obj) (viewBoxWidth viewBoxHeight : value) (parentEvents : value)
    (child : element)
| VictoryTransition (animate : value) (animationWhitelist : list string)
    (child : element)
| VictoryLineElement (p : Props)
| VictoryLabel (p : obj).

Module VictoryLine.

Definition defaultStyles : obj :=
  <["markers" := VObj {[ "opacity" := VNum 1 ]}]>
  (<["data" := VObj (<["strokeWidth" := VNum 2]>
                    (<["fill" := VStr "none"]>
                    (<["stroke" := VStr "#756f6a"]>
                    (<["opacity" := VNum 1]> ∅))))]>
  (<["labels" := VObj (<["padding" := VNum 5]>
                      (<["fontFamily" := VStr "Helvetica"]>
                      (<["fontSize" := VNum 10]>
                      (<["strokeWidth" := VNum 0]>
                      (<["stroke" := VStr "transparent"]>
                      (<["textAnchor" := VStr "start"]> ∅))))))]> ∅)).

(** The object [getStyles] returns has the properties [parent], [data],
    [labels] and [line], and no [markers]. *)
Definition getStyles (p : Props) : styles :=
  let style := or_else (style p) (VObj ∅) in
  {| style_parent :=
       defaults (<["width" := VStr "100%"]> (<["height" := VStr "auto"]> ∅))
         [getv style "parent"; get defaultStyles "parent"];
     style_data := defaults ∅ [getv style "data"; get defaultStyles "data"];
     style_labels := defaults ∅ [getv style "labels"; get defaultStyles "labels"];
     style_line := defaults ∅ [getv style "line"; get defaultStyles "line"];
     style_markers := VUndefined |}.

(** [static defaultTransitions] *)
Record transition : Type := mkTransition {
  duration : Z;
  before : value → obj;
  after : option (value → obj)
}.

Definition onExit : transition :=
  {| duration := 500;
     before := fun _ => {[ "y" := VNull ]};
     after := None |}.

Definition onEnter : transition :=
  {| duration := 500;
     before := fun _ => {[ "y" := VNull ]};
     after := Some (fun datum => {[ "y" := getv datum "y" ]}) |}.

(** [static defaultProps]; the props without a default are [undefined]. *)
Definition defaultProps : Props :=
  {| animate := VUndefined;
     events := ∅;
     height := VNum 300;
     interpolation := VStr "linear";
     labels := VUndefined;
     labelComponent := {| ctype := "Label"; cprops := ∅ |};
     markerComponent := {| ctype := "Point"; cprops := ∅ |};
     seriesLabel := VUndefined;
     standalone := VBool true;
     style := VUndefined;
     width := VNum 450;
     rest := <["padding" := VNum 50]> (<["samples" := VNum 50]>
             (<["scale" := VStr "linear"]> (<["x" := VStr "x"]>
             (<["y" := VStr "y"]> ∅)))) |}.

Definition whitelist : list string :=
  ["data"; "domain"; "height"; "padding"; "samples"; "style"; "width"; "x"; "y"].

Section Render.
Context `{ChartAPI}.

Definition getLabelStyle (style : styles) (datum : value) : result value :=
  let fill := get (style_line style) "stroke" in
  let padding := or_else (get (style_labels style) "padding") (VNum 0) in
  let labelStyle :=
    defaults ∅ [VObj (style_labels style);
                VObj (<["fill" := fill]> (<["padding" := padding]> ∅))] in
  evaluateStyle (VObj labelStyle) datum.

Definition renderLine (this : This) (p : Props) (c : calculatedProps)
    : list element :=
  let events := getEvents this (get (events p) "data") "data" in
  imap (fun index data =>
          let lineProps :=
            {| line_key := "line-segment-" ++ pretty index;
               line_interpolation := interpolation p;
               line_style := style_data (calc_style c);
               line_scale := scale c;
               line_index := index;
               line_data := data |} in
          LineSegment lineProps (getPartialEvents events index (OfLine lineProps)))
       (dataSegments c).

Definition getLabelText (p : Props) (datum : datum) (index : nat) : value :=
  let propsLabel :=
    match labels p with
    | VArr l => default VUndefined (l !! index)
    | l => evaluateProp l (datum_value datum)
    end in
  or_else (label datum) propsLabel.

(** [{index, datum, x, y}] *)
Definition sharedProps (c : calculatedProps) (datum : datum) (index : nat) : obj :=
  <["index" := VNum (Z.of_nat index)]>
  (<["datum" := datum_value datum]>
  (<["x" := scale_x (scale c) (VNum (x datum))]>
  (<["y" := scale_y (scale c) (y datum)]> ∅))).

(** The object literal that opens the marker's props, once its [style] has
    been evaluated. *)
Definition markerLiteral (style : value) (index : nat) : obj :=
  <["key" := VStr ("marker-" ++ pretty index)]> (<["style" := style]> ∅).

(** The marker's props.  The literal is evaluated first, and with it
    [Helpers.evaluateStyle(style.markers, datum)], which throws when
    [style.markers] is [undefined]. *)
Definition markerProps (this : This) (p : Props) (c : calculatedProps)
    (datum : datum) (index : nat) : result obj :=
  style ← evaluateStyle (style_markers (calc_style c)) (datum_value datum);
  mret (assign (markerLiteral style index)
          [VObj (sharedProps c datum index);
           VObj (cprops (markerComponent p));
           at_index (markersState (state this)) index]).

(** [Helpers.getPartialEvents(markersEvents, index, markerProps)] *)
Definition markerEvents (this : This) (p : Props) (index : nat)
    (markerProps : obj) : value :=
  let markersEvents := getEvents this (get (events p) "markers") "markers" in
  getPartialEvents markersEvents index (OfObject markerProps).

Definition renderMarker (this : This) (p : Props) (c : calculatedProps)
    (datum : datum) (index : nat) : result element :=
  markerProps ← markerProps this p c datum index;
  mret (CloneElement (markerComponent p)
          (assign {[ "events" := markerEvents this p index markerProps ]}
             [VObj markerProps])).

(** The object literal that opens the label's props.  [labelStyle] is what
    [getLabelStyle] returned, a style that is not [null] or [undefined]. *)
Definition labelLiteral (labelStyle : value) (index : nat) (text : value) : obj :=
  <["key" := VStr ("label-" ++ pretty index)]>
  (<["dy" := getv labelStyle "padding"]>
  (<["textAnchor" := getv labelStyle "textAnchor"]>
  (<["verticalAnchor" := or_else (getv labelStyle "verticalAnchor") (VStr "end")]>
  (<["style" := labelStyle]>
  (<["text" := text]> ∅))))).

Definition labelProps (this : This) (p : Props) (c : calculatedProps)
    (datum : datum) (index : nat) (text : value) : result obj :=
  labelStyle ← getLabelStyle (calc_style c) (datum_value datum);
  mret (assign (labelLiteral labelStyle index text)
          [VObj (cprops (labelComponent p));
           VObj (sharedProps c datum index);
           at_index (labelsState (state this)) index]).

(** [Helpers.getPartialEvents(labelsEvents, index, labelProps)] *)
Definition labelEvents (this : This) (p : Props) (index : nat)
    (labelProps : obj) : value :=
  let labelsEvents := getEvents this (get (events p) "labels") "labels" in
  getPartialEvents labelsEvents index (OfObject labelProps).

Definition renderLabel (this : This) (p : Props) (c : calculatedProps)
    (datum : datum) (index : nat) (text : value) : result element :=
  labelProps ← labelProps this p c datum index text;
  mret (CloneElement (labelComponent p)
          (assign labelProps
             [VObj {[ "events" := labelEvents this p index labelProps ]}])).

(** [this.props.labels === true] *)
Definition labels_is_true (this : This) : bool :=
  match labels (props this) with
  | VBool true => true
  | _ => false
  end.

(** The callback of [dataset.map]. *)
Definition renderPoint (this : This) (p : Props) (c : calculatedProps)
    (index : nat) (datum : datum) : result (option element) :=
  if isGap datum then mret None
  else
    marker ← renderMarker this p c datum index;
    let text := getLabelText p datum index in
    if truthy text || labels_is_true this
    then
      label ← renderLabel this p c datum index text;
      mret (Some (MarkerGroup ("marker-group-" ++ pretty index) marker label))
    else mret (Some marker).

(** [array.map(callback)] with a callback that can throw: the elements are
    visited in order, from [index] on, and the first exception ends the
    map. *)
Fixpoint map_from {A B} (callback : nat → A → result B) (index : nat)
    (array : list A) : result (list B) :=
  match array with
  | [] => mret []
  | a :: array' =>
      b ← callback index a;
      bs ← map_from callback (S index) array';
      mret (b :: bs)
  end.

Definition renderMarkersAndLabels (this : This) (p : Props)
    (c : calculatedProps) : result (list (option element)) :=
  map_from (renderPoint this p c) 0 (dataset c).

(** [dataSegments[dataSegments.length - 1]] is [undefined] on an empty
    array; [Array.isArray] then fails and [lastPoint] is that [undefined]
    too; on a segment (always an array) it is the segment's last element. *)
Definition renderSeriesLabel (this : This) (p : Props)
    (c : calculatedProps) : result (option element) :=
  if negb (truthy (seriesLabel p)) then mret None
  else
    let lastSegment := last (dataSegments c) in
    let lastPoint :=
      match lastSegment with
      | Some segment => datum_value <$> last segment
      | None => None
      end in
    let lastPoint := default VUndefined lastPoint in
    px ← getprop lastPoint "x";
    py ← getprop lastPoint "y";
    labelStyle ← getLabelStyle (calc_style c) VUndefined;
    mret (Some
      (LineLabel "line-label"
         (getEvents this (get (events p) "labels") "labels")
         (dataset c)
         (scale_x (scale c) px)
         (scale_y (scale c) py)
         (seriesLabel p)
         labelStyle)).

Definition renderData (this : This) (p : Props) (style : styles)
    : result element :=
  let dataset := getData p in
  let dataSegments := getDataSegments dataset in
  let range_x := getRange p "x" in
  let range_y := getRange p "y" in
  let domain_x := getDomain p "x" in
  let domain_y := getDomain p "y" in
  let scale :=
    {| scale_x := buildScale p "x" domain_x range_x;
       scale_y := buildScale p "y" domain_y range_y |} in
  let calculatedProps :=
    {| dataset := dataset; dataSegments := dataSegments;
       scale := scale; calc_style := style |} in
  let line := renderLine this p calculatedProps in
  markersAndLabels ← renderMarkersAndLabels this p calculatedProps;
  seriesLabel ← renderSeriesLabel this p calculatedProps;
  mret (DataGroup (style_parent style) line markersAndLabels seriesLabel).

Definition render (this : This) : result element :=
  if truthy (animate (props this))
  then
    mret (VictoryTransition (animate (props this)) whitelist
            (VictoryLineElement (props this)))
  else
    let style := getStyles (props this) in
    data ← renderData this (props this) style;
    let group := Group (style_parent style) data in
    mret (if truthy (standalone (props this))
          then Svg (style_parent style) (width (props this)) (height (props this))
                 (get (events (props this)) "parent") group
          else group).

End Render.

End VictoryLine.

(** ** The shared [Label] component *)

Module Label.

(** An identifier that no declaration of the module binds is looked up on
    the global object; a missing one throws a [ReferenceError]. *)
Definition free_identifier (globals : obj) (name : string) : result value :=
  match globals !! name with
  | Some v => mret v
  | None => Throw (ReferenceError name)
  end.

Section Render.
Context `{HelpersAPI}.

(** [render] destructures [style], [datum], [events], [index], [position]
    and [text] from its props and evaluates the style first; [dy],
    [textAnchor] and [verticalAnchor] are bound nowhere in the module. *)
Definition render (globals : obj) (props : obj) : result element :=
  let style := get props "style" in
  let datum := get props "datum" in
  let events := get props "events" in
  let position := get props "position" in
  let text := get props "text" in
  labelStyle ← evaluateStyle style datum;
  px ← getprop position "x";
  py ← getprop position "y";
  dy ← free_identifier globals "dy";
  padding ← (if truthy dy then mret dy else getprop labelStyle "padding");
  textAnchor ← free_identifier globals "textAnchor";
  anchor ← (if truthy textAnchor then mret textAnchor
            else getprop labelStyle "textAnchor");
  verticalAnchor ← free_identifier globals "verticalAnchor";
  mret (VictoryLabel
          (<["x" := px]>
          (<["y" := py]>
          (<["dy" := padding]>
          (<["textAnchor" := or_else anchor (VStr "middle")]>
          (<["verticalAnchor" := or_else verticalAnchor (VStr "end")]>
          (<["style" := labelStyle]>
          (<["events" := events]>
          (<["datum" := datum]>
          (<["text" := text]> ∅)))))))))).

End Render.

End Label.

(** ** Collaborators for charts without function-valued styles or labels *)

Module Plain.

(** A data point read with the default accessors [x: "x"] and [y: "y"]. *)
Definition datum_of_value (v : value) : datum :=
  {| x := match getv v "x" with VNum n => n | _ => 0 end;
     y := getv v "y";
     label := getv v "label" |}.

(** Modelled from the spec: victory-core's [Helpers.evaluateStyle] is not
    among the sources, and the specification does not describe it.  It reads
    [Object.keys(style)], so it throws a [TypeError] on [undefined] and on
    [null]; a style that holds no function it returns as it is. *)
Definition evaluateStyle_plain (style data : value) : result value :=
  if is_nullish style
  then Throw (TypeError "Cannot convert undefined or null to object")
  else Ret style.

(** Modelled from the spec: victory-core's [Helpers] is not among the
    sources.  On values that hold no function a prop evaluates to itself; no
    event handler is attached. *)
Definition helpers : HelpersAPI.
Proof.
  refine {| evaluateStyle := evaluateStyle_plain;
            evaluateProp := fun prop _ => prop;
            getEvents := fun _ _ _ => VObj ∅;
            getPartialEvents := fun events _ _ => events;
            rangeT := unit;
            getRange := fun _ _ => tt |}.
  - intros style data Hnull. unfold evaluateStyle_plain. rewrite Hnull.
    by eexists.
  - intros style data Hnull. unfold evaluateStyle_plain. rewrite Hnull.
    by eexists.
Defined.

(** Modelled from the spec: [Data.getData], [Domain.getDomain] and
    [Scale.getBaseScale] (the chart's helpers, §4.2 to §4.4) are not among the
    sources.  For data given as an array of [{x, y, label}] objects with
    numeric [x] and read with the default accessors, the dataset is the array
    point by point, in input order.  The scale taken here maps a coordinate
    to itself; it stands in for the domain-to-range mapping of §4.4 and fixes
    no pixel value. *)
Definition chart : @ChartAPI helpers :=
  {| domainT := unit;
     getData := fun p =>
       match get (rest p) "data" with
       | VArr l => datum_of_value <$> l
       | _ => []
       end;
     getDomain := fun _ _ => tt;
     buildScale := fun _ _ _ _ => fun v => v |}.

Definition point (px : Z) (py : value) : value :=
  VObj (<["x" := VNum px]> (<["y" := py]> ∅)).

Definition labelled_point (px : Z) (py : value) (text : value) : value :=
  VObj (<["x" := VNum px]> (<["y" := py]> (<["label" := text]> ∅))).

(** [<VictoryLine data labels seriesLabel style labelComponent/>], every
    other prop at its default. *)
Definition custom_props (data : list value) (labels seriesLabel style : value)
    (labelComponent : component) : Props :=
  {| animate := animate VictoryLine.defaultProps;
     events := events VictoryLine.defaultProps;
     height := height VictoryLine.defaultProps;
     interpolation := interpolation VictoryLine.defaultProps;
     labels := labels;
     labelComponent := labelComponent;
     markerComponent := markerComponent VictoryLine.defaultProps;
     seriesLabel := seriesLabel;
     standalone := standalone VictoryLine.defaultProps;
     style := style;
     width := width VictoryLine.defaultProps;
     rest := <["data" := VArr data]> (rest VictoryLine.defaultProps) |}.

(** [<VictoryLine data={data} labels={labels} seriesLabel={seriesLabel}/>] *)
Definition line_props (data : list value) (labels seriesLabel : value) : Props :=
  custom_props data labels seriesLabel VUndefined
    (labelComponent VictoryLine.defaultProps).

(** The same props with [animate={a}]. *)
Definition animated (p : Props) (a : value) : Props :=
  {| animate := a;
     events := events p;
     height := height p;
     interpolation := interpolation p;
     labels := labels p;
     labelComponent := labelComponent p;
     markerComponent := markerComponent p;
     seriesLabel := seriesLabel p;
     standalone := standalone p;
     style := style p;
     width := width p;
     rest := rest p |}.

(** What [renderData] computes before it renders, for these collaborators. *)
Definition calculated (p : Props) : calculatedProps :=
  {| dataset := @getData helpers chart p;
     dataSegments := getDataSegments (@getData helpers chart p);
     scale :=
       {| scale_x := @buildScale helpers chart p "x"
                       (@getDomain helpers chart p "x") (@getRange helpers p "x");
          scale_y := @buildScale helpers chart p "y"
                       (@getDomain helpers chart p "y") (@getRange helpers p "y") |};
     calc_style := VictoryLine.getStyles p |}.

(** The same style with a [markers] entry, as a caller of
    [renderMarkersAndLabels] can pass it. *)
Definition with_markers (st : styles) (markers : value) : styles :=
  {| style_parent := style_parent st;
     style_data := style_data st;
     style_labels := style_labels st;
     style_line := style_line st;
     style_markers := markers |}.

(** [calculated p] with the style [{...getStyles(p), markers}]. *)
Definition calculated_with_markers (p : Props) (markers : value)
    : calculatedProps :=
  {| dataset := dataset (calculated p);
     dataSegments := dataSegments (calculated p);
     scale := scale (calculated p);
     calc_style := with_markers (VictoryLine.getStyles p) markers |}.

(** The merge order as §4.6 of the specification words it, later wins:
    built-in defaults, caller-supplied component defaults, computed layout
    fields, stored override. *)
Definition specified_merge (builtin component computed override : obj) : obj :=
  assign builtin [VObj component; VObj computed; VObj override].

(** Scenario A of the specification. *)
Definition scenarioA : list datum :=
  [mkDatum 1 (VNum 1) VUndefined; mkDatum 2 VNull VUndefined;
   mkDatum 3 (VNum 3) VUndefined].

End Plain.

(** ** Vocabulary for the properties of the rendered elements *)

Module Geometry.

(** The runs of points between gaps, as a scan that accumulates the current
    run: a gap closes the run (without the gap point) and opens an empty one;
    the end of the list closes the last run. *)
Fixpoint runs (run rest : list datum) : list (list datum) :=
  match rest with
  | [] => [run]
  | d :: rest' =>
      if isGap d then run :: runs [] rest' else runs (run ++ [d]) rest'
  end.

(** A point whose [y] is [null] or [undefined]. *)
Definition gap (d : datum) : Prop := isGap d = true.

(** [v === undefined] *)
Definition is_undefined (v : value) : bool :=
  match v with
  | VUndefined => true
  | _ => false
  end.

(** The points a line segment element draws, and its key. *)
Definition segment_data (e : element) : list datum :=
  match e with
  | LineSegment p _ => line_data p
  | _ => []
  end.

Definition segment_key (e : element) : string :=
  match e with
  | LineSegment p _ => line_key p
  | _ => ""
  end.

(** The keys the label's [index], [datum], [x], [y] and [events] are stored
    under. *)
Definition shared_or_events (k : string) : Prop :=
  k ∈ ["index"; "datum"; "x"; "y"; "events"].

End Geometry.

(** * Properties *)

(** ** lodash's sort *)

Module SortFacts.

Lemma insert_by_x_perm d l : insert_by_x d l ≡ₚ d :: l.
Proof.
  induction l as [|e l IH]; simpl; [done|].
  destruct (x d <=? x e)%Z; [done|].
  rewrite IH. apply Permutation_swap.
Qed.

Lemma sortBy_x_perm l : sortBy_x l ≡ₚ l.
Proof.
  induction l as [|d l IH]; simpl; [done|].
  by rewrite insert_by_x_perm, IH.
Qed.

Lemma sortBy_x_length l : length (sortBy_x l) = length l.
Proof. by rewrite sortBy_x_perm. Qed.

Lemma insert_by_x_sorted d l :
  StronglySorted le_x l → StronglySorted le_x (insert_by_x d l).
Proof.
  induction 1 as [|e l Hs IH Hall]; simpl.
  - repeat constructor.
  - destruct (x d <=? x e)%Z eqn:Hle.
    + apply Z.leb_le in Hle. constructor; [by constructor|].
      constructor; [done|].
      eapply Forall_impl; [exact Hall|]. unfold le_x. intros; simpl in *. lia.
    + apply Z.leb_gt in Hle. constructor; [done|].
      rewrite insert_by_x_perm. constructor; [|done]. unfold le_x. lia.
Qed.

Lemma sortBy_x_sorted l : StronglySorted le_x (sortBy_x l).
Proof.
  induction l as [|d l IH]; simpl; [constructor|].
  by apply insert_by_x_sorted.
Qed.

Lemma with_key_cons k d l :
  with_key k (d :: l) = if decide (x d = k) then d :: with_key k l else with_key k l.
Proof. unfold with_key. by rewrite filter_cons. Qed.

Lemma insert_by_x_with_key k d l :
  with_key k (insert_by_x d l) = with_key k (d :: l).
Proof.
  induction l as [|e l IH]; simpl; [done|].
  destruct (x d <=? x e)%Z eqn:Hle; [done|].
  apply Z.leb_gt in Hle.
  rewrite (with_key_cons k e), IH, !with_key_cons.
  repeat case_decide; try done; lia.
Qed.

(** The sort is stable: the points with a given key keep their order. *)
Lemma sortBy_x_stable k l : with_key k (sortBy_x l) = with_key k l.
Proof.
  induction l as [|d l IH]; simpl; [done|].
  by rewrite insert_by_x_with_key, !with_key_cons, IH.
Qed.

Lemma with_key_elem_of k d l : d ∈ with_key k l ↔ x d = k ∧ d ∈ l.
Proof. unfold with_key. by rewrite list_elem_of_filter. Qed.

(** A list sorted by [x] is determined by its points key by key. *)
Lemma sorted_by_keys l1 l2 :
  StronglySorted le_x l1 → StronglySorted le_x l2 →
  (∀ k, with_key k l1 = with_key k l2) → l1 = l2.
Proof.
  intros Hs1. revert l2.
  induction Hs1 as [|a t1 Hs1 IH Ha]; intros l2 Hs2 Hk.
  - destruct l2 as [|b t2]; [done|].
    specialize (Hk (x b)). rewrite with_key_cons in Hk.
    by rewrite decide_True in Hk.
  - destruct Hs2 as [|b t2 Hs2 Hb].
    { specialize (Hk (x a)). rewrite with_key_cons in Hk.
      by rewrite decide_True in Hk. }
    assert (x a = x b) as Hab.
    { assert (a ∈ b :: t2) as Hin2.
      { eapply (with_key_elem_of (x a)). rewrite <- Hk.
        apply with_key_elem_of. split; [done|]. left. }
      assert (b ∈ a :: t1) as Hin1.
      { eapply (with_key_elem_of (x b)). rewrite Hk.
        apply with_key_elem_of. split; [done|]. left. }
      apply elem_of_cons in Hin2 as [->|Hin2]; [done|].
      apply elem_of_cons in Hin1 as [->|Hin1]; [done|].
      rewrite Forall_forall in Ha, Hb.
      specialize (Ha _ Hin1). specialize (Hb _ Hin2).
      unfold le_x in *. lia. }
    pose proof (Hk (x a)) as Hka.
    rewrite !with_key_cons in Hka.
    rewrite decide_True in Hka by done.
    rewrite decide_True in Hka by done.
    injection Hka as -> Hka.
    f_equal. apply IH; [done|].
    intros k. specialize (Hk k). rewrite !with_key_cons in Hk.
    destruct (decide (x b = k)) as [<-|]; [done|done].
Qed.

(** Every stable ascending sort by [x] computes [sortBy_x]: a list that is
    sorted by [x] and keeps, for every key, the points of the input in their
    input order is the list [sortBy_x] returns. *)
Lemma sortBy_x_unique l l' :
  StronglySorted le_x l' → (∀ k, with_key k l' = with_key k l) →
  l' = sortBy_x l.
Proof.
  intros Hs Hk. apply sorted_by_keys; [done|apply sortBy_x_sorted|].
  intros k. by rewrite sortBy_x_stable.
Qed.

End SortFacts.

(** ** The scan of the Segmenter *)

Module SegmenterFacts.
Import SortFacts.

Lemma without_gaps_cons d l :
  without_gaps (d :: l) = if isGap d then without_gaps l else d :: without_gaps l.
Proof.
  unfold without_gaps, nongap. rewrite filter_cons.
  destruct (isGap d); by case_decide.
Qed.

Lemma without_gaps_id l : Forall nongap l → without_gaps l = l.
Proof.
  induction 1 as [|d l Hd _ IH]; [done|].
  rewrite without_gaps_cons, IH. unfold nongap in Hd. by rewrite Hd.
Qed.

Lemma slice_prefix {A} (pre post : list A) start :
  slice (pre ++ post) start (length pre) = drop start pre.
Proof.
  unfold slice. rewrite drop_app.
  rewrite take_app_length'; [done|]. by rewrite length_drop.
Qed.

Lemma slice_to_end {A} (l : list A) start :
  slice l start (length l) = drop start l.
Proof.
  unfold slice. rewrite take_ge; [done|]. by rewrite length_drop.
Qed.

Lemma scan_inv_init : scan_inv [] [] 0.
Proof. by split; simpl; try constructor. Qed.

Lemma scan_inv_nongap pre segments start d :
  isGap d = false → scan_inv pre segments start →
  scan_inv (pre ++ [d]) segments start.
Proof.
  intros Hd [Hstart Hrun Hclosed Hcat].
  split.
  - rewrite length_app. simpl. lia.
  - rewrite drop_app_le by done. apply Forall_app. split; [done|].
    by constructor.
  - done.
  - rewrite drop_app_le by done.
    rewrite (assoc_L (++)), Hcat.
    unfold without_gaps. rewrite filter_app. f_equal.
    fold (without_gaps [d]). rewrite without_gaps_cons. by rewrite Hd.
Qed.

Lemma scan_inv_gap pre segments start d :
  isGap d = true → scan_inv pre segments start →
  scan_inv (pre ++ [d]) (segments ++ [drop start pre]) (length pre + 1).
Proof.
  intros Hd [Hstart Hrun Hclosed Hcat].
  assert (drop (length pre + 1) (pre ++ [d]) = []) as Hnil.
  { apply drop_ge. rewrite length_app. simpl. lia. }
  split.
  - rewrite length_app. simpl. lia.
  - rewrite Hnil. constructor.
  - apply Forall_app. split; [done|]. by constructor.
  - rewrite Hnil, (right_id_L [] (++)), concat_app. simpl.
    rewrite (right_id_L [] (++)), Hcat.
    unfold without_gaps. rewrite filter_app.
    fold (without_gaps [d]). rewrite without_gaps_cons, Hd.
    unfold without_gaps. rewrite filter_nil.
    by rewrite (right_id_L [] (++)).
Qed.

Lemma forEach_scan_inv orderedData rest pre segments start :
  orderedData = pre ++ rest →
  scan_inv pre segments start →
  scan_inv orderedData
    (forEach_scan orderedData rest (length pre) segments start).1
    (forEach_scan orderedData rest (length pre) segments start).2.
Proof.
  revert pre segments start.
  induction rest as [|d rest IH]; intros pre segments start Heq Hinv; simpl.
  - rewrite (right_id_L [] (++)) in Heq. by subst.
  - assert (orderedData = (pre ++ [d]) ++ rest) as Heq'.
    { by rewrite <- (assoc_L (++)). }
    assert (S (length pre) = length (pre ++ [d])) as Hlen.
    { rewrite length_app. simpl. lia. }
    destruct (isGap d) eqn:Hd.
    + rewrite Hlen. replace (length pre + 1)%nat with (length (pre ++ [d])) at 2 4 by lia.
      assert (slice orderedData start (length pre) = drop start pre) as ->.
      { rewrite Heq. apply slice_prefix. }
      apply IH; [done|].
      replace (length (pre ++ [d])) with (length pre + 1)%nat by lia.
      by apply scan_inv_gap.
    + rewrite Hlen. apply IH; [done|]. by apply scan_inv_nongap.
Qed.

Lemma concat_filter_nonempty {A} (ls : list (list A)) :
  concat (filter (fun s : list A => (0 < length s)%nat) ls) = concat ls.
Proof.
  induction ls as [|s ls IH]; [done|].
  rewrite filter_cons. case_decide; simpl; [by rewrite IH|].
  destruct s; simpl in *; [done|lia].
Qed.

Lemma getDataSegments_raw dataset :
  getDataSegments dataset =
  filter (fun s : list datum => (0 < length s)%nat) (raw_segments (sortBy_x dataset)).
Proof.
  unfold getDataSegments, raw_segments.
  by destruct (forEach_scan _ _ _ _ _).
Qed.

Lemma raw_segments_concat orderedData :
  concat (raw_segments orderedData) = without_gaps orderedData.
Proof.
  unfold raw_segments.
  destruct (forEach_scan_inv orderedData orderedData [] [] 0 eq_refl scan_inv_init)
    as [_ _ _ Hcat].
  simpl in Hcat. rewrite concat_app. simpl.
  by rewrite (right_id_L [] (++)), slice_to_end.
Qed.

Lemma raw_segments_nongap orderedData :
  Forall (Forall nongap) (raw_segments orderedData).
Proof.
  unfold raw_segments.
  destruct (forEach_scan_inv orderedData orderedData [] [] 0 eq_refl scan_inv_init)
    as [_ Hrun Hclosed _].
  simpl in *. apply Forall_app. split; [done|].
  constructor; [|done]. by rewrite slice_to_end.
Qed.

Lemma getDataSegments_concat dataset :
  concat (getDataSegments dataset) = without_gaps (sortBy_x dataset).
Proof.
  by rewrite getDataSegments_raw, concat_filter_nonempty, raw_segments_concat.
Qed.

Lemma getDataSegments_segments dataset :
  Forall (fun segment => segment ≠ [] ∧ Forall nongap segment)
    (getDataSegments dataset).
Proof.
  rewrite getDataSegments_raw. apply Forall_forall. intros s Hs.
  apply list_elem_of_filter in Hs as [Hlen Hin]. split.
  - intros ->. simpl in Hlen. lia.
  - pose proof (raw_segments_nongap (sortBy_x dataset)) as Hall.
    rewrite Forall_forall in Hall. by apply Hall.
Qed.

End SegmenterFacts.

(** ** The Segmenter on a store *)

Module StoreFacts.
Import Store SegmenterFacts.
#[local] Open Scope nat_scope.

Lemma bind_run {A B} (m : M A) (k : A → M B) (h : store) :
  (m ≫= k) h = match m h with
               | Some (a, h') => k a h'
               | None => None
               end.
Proof. reflexivity. Qed.

Lemma scanning_length h o segs :
  length (scanning h o segs) = (length h + 2 + length segs)%nat.
Proof. unfold scanning. rewrite length_app. simpl. rewrite length_fmap. lia. Qed.

Lemma scanning_ordered h o segs :
  scanning h o segs !! length h = Some (DataArray o).
Proof. unfold scanning. by rewrite list_lookup_middle. Qed.

Lemma scanning_segments h o segs :
  scanning h o segs !! (length h + 1)%nat
  = Some (RefArray (seq (length h + 2) (length segs))).
Proof.
  unfold scanning. rewrite lookup_app_r by lia.
  by replace (length h + 1 - length h)%nat with 1%nat by lia.
Qed.

Lemma scanning_segment h o segs i :
  scanning h o segs !! (length h + 2 + i)%nat = DataArray <$> segs !! i.
Proof.
  unfold scanning. rewrite lookup_app_r by lia.
  replace (length h + 2 + i - length h)%nat with (S (S i)) by lia.
  simpl. by rewrite list_lookup_fmap.
Qed.

Lemma scanning_frame h o segs l c :
  h !! l = Some c → scanning h o segs !! l = Some c.
Proof. intros Hl. unfold scanning. by apply lookup_app_l_Some. Qed.

(** One [slice] followed by [push]. *)
Lemma slice_push h o segs start stop :
  (s ← slice_store (length h) start stop; push (length h + 1) s)
    (scanning h o segs)
  = Some (tt, scanning h o (segs ++ [slice o start stop])).
Proof.
  rewrite bind_run. unfold slice_store. rewrite bind_run.
  unfold read_data. rewrite scanning_ordered.
  unfold alloc, push.
  rewrite lookup_app_l by (rewrite scanning_length; lia).
  rewrite scanning_segments. f_equal. f_equal.
  rewrite scanning_length. unfold scanning.
  rewrite <- (assoc_L (++)). simpl.
  rewrite insert_app_r_alt by lia.
  replace (length h + 1 - length h)%nat with 1%nat by lia. simpl.
  rewrite length_app, fmap_app. simpl.
  by rewrite seq_app.
Qed.

Lemma forEach_store_scan h o rest index segs start :
  forEach_store (length h) (length h + 1) rest index start (scanning h o segs)
  = Some ((forEach_scan o rest index segs start).2,
          scanning h o (forEach_scan o rest index segs start).1).
Proof.
  revert index segs start.
  induction rest as [|d rest IH]; intros index segs start; simpl; [done|].
  destruct (isGap d); [|apply IH].
  pose proof (slice_push h o segs start index) as Hstep.
  rewrite bind_run in Hstep.
  rewrite bind_run.
  destruct (slice_store (length h) start index (scanning h o segs))
    as [[s h1]|]; [|done].
  rewrite bind_run, Hstep. apply IH.
Qed.

Lemma filter_refs_holds h refs segs :
  holds h refs segs →
  ∃ kept, filter_refs refs h = Some (kept, h) ∧
          holds h kept (filter (fun s : list datum => 0 < length s) segs) ∧
          kept ⊆ refs.
Proof.
  induction 1 as [|r s refs segs Hr _ (kept & Hrun & Hkept & Hsub)]; simpl.
  - exists []. split; [done|]. split; [constructor|done].
  - rewrite bind_run. unfold nonempty_array at 1. rewrite Hr.
    rewrite bind_run, Hrun. rewrite filter_cons.
    case_bool_decide; case_decide; try done.
    + exists (r :: kept). split; [done|]. split; [by constructor|].
      intros r' Hr'. apply elem_of_cons in Hr' as [->|Hr']; [left|right; auto].
    + exists kept. split; [done|]. split; [done|].
      intros r' Hr'. right. auto.
Qed.

Lemma scanning_holds h o segs :
  holds (scanning h o segs) (seq (length h + 2) (length segs)) segs.
Proof.
  apply Forall2_same_length_lookup_2.
  - by rewrite length_seq.
  - intros i r s Hr Hs. apply lookup_seq in Hr as [-> _].
    by rewrite scanning_segment, Hs.
Qed.

(** [getDataSegments] run on a store whose cell [dataset] holds the array
    [D]: it returns; the store it leaves is the one it started from followed
    by new cells; the array it returns is one of the new cells, it refers to
    new cells only, and it holds the segments computed from [D]. *)
Lemma getDataSegments_store_spec (h : store) (dataset : loc) (D : list datum) :
  h !! dataset = Some (DataArray D) →
  ∃ r ext refs,
    getDataSegments_store dataset h = Some (r, h ++ ext) ∧
    (h ++ ext) !! r = Some (RefArray refs) ∧
    length h ≤ r ∧
    Forall (fun s => length h ≤ s) refs ∧
    read_segments (h ++ ext) r = Some (getDataSegments D).
Proof.
  intros Hd. unfold getDataSegments_store.
  set (o := sortBy_x D).
  pose proof (forEach_store_scan h o o 0 [] 0) as Hscan.
  pose proof (getDataSegments_raw D) as Hraw. fold o in Hraw.
  unfold raw_segments in Hraw.
  destruct (forEach_scan o o 0 [] 0) as [segs start] eqn:Hpure.
  simpl in Hscan, Hraw.
  set (all := segs ++ [slice o start (length o)]) in *.
  destruct (filter_refs_holds _ _ _ (scanning_holds h o all))
    as (kept & Hf & Hk & Hsub).
  exists (length (scanning h o all)),
    (DataArray o :: RefArray (seq (length h + 2) (length all))
       :: (DataArray <$> all) ++ [RefArray kept]),
    kept.
  assert (h ++ DataArray o :: RefArray (seq (length h + 2) (length all))
            :: (DataArray <$> all) ++ [RefArray kept]
          = scanning h o all ++ [RefArray kept]) as ->.
  { unfold scanning. by rewrite <- (assoc_L (++)). }
  split; [|split; [|split; [|split]]].
  - rewrite bind_run. unfold sortBy_store. rewrite bind_run.
    unfold read_data at 1. rewrite Hd. unfold alloc at 1. fold o.
    rewrite bind_run. unfold alloc at 1.
    rewrite bind_run. unfold read_data at 1.
    replace ((h ++ [DataArray o]) ++ [RefArray []]) with (scanning h o [])
      by (unfold scanning; by rewrite <- (assoc_L (++))).
    rewrite length_app. simpl length.
    rewrite scanning_ordered.
    rewrite bind_run, Hscan.
    pose proof (slice_push h o segs start (length o)) as Hstep.
    rewrite bind_run in Hstep. rewrite bind_run.
    destruct (slice_store (length h) start (length o) (scanning h o segs))
      as [[s h1]|]; [|done].
    rewrite bind_run, Hstep. fold all.
    unfold filter_store. rewrite bind_run. unfold read_refs.
    rewrite scanning_segments. rewrite bind_run, Hf. done.
  - by rewrite list_lookup_middle.
  - rewrite scanning_length. lia.
  - apply Forall_forall. intros s Hs. apply Hsub in Hs.
    apply elem_of_seq in Hs. lia.
  - unfold read_segments. rewrite list_lookup_middle by done.
    apply mapM_Some. rewrite Hraw.
    eapply Forall2_impl; [exact Hk|]. intros r s Hr. simpl.
    by rewrite (lookup_app_l_Some _ _ _ _ Hr).
Qed.

End StoreFacts.

(** ** The Segmenter: partition, stability, frame *)

Section SegmenterClaims.
Import SortFacts SegmenterFacts Store StoreFacts.

(** C1.  For every dataset [D]: [sortBy_x D] is the stable ascending sort of
    [D] by [x] (a permutation of [D], sorted, the points of each key in their
    input order); the segments returned, concatenated in order, are exactly
    the sorted list with the gaps removed, so no point is duplicated or
    dropped; no segment is empty and no segment holds a point whose [y] is
    [null] or [undefined]. *)
Theorem getDataSegments_partition (D : list datum) :
  sortBy_x D ≡ₚ D ∧
  StronglySorted le_x (sortBy_x D) ∧
  (∀ k, with_key k (sortBy_x D) = with_key k D) ∧
  concat (getDataSegments D) = without_gaps (sortBy_x D) ∧
  Forall (fun segment => segment ≠ [] ∧ Forall (fun d => is_nullish (y d) = false) segment)
    (getDataSegments D).
Proof.
  split; [apply sortBy_x_perm|].
  split; [apply sortBy_x_sorted|].
  split; [intros k; apply sortBy_x_stable|].
  split; [apply getDataSegments_concat|].
  apply getDataSegments_segments.
Qed.

Lemma with_key_without_gaps k l :
  with_key k (without_gaps l) = without_gaps (with_key k l).
Proof.
  unfold with_key, without_gaps. rewrite !list_filter_filter.
  apply list_filter_iff. tauto.
Qed.

Lemma getDataSegments_with_key D k :
  with_key k (concat (getDataSegments D)) = with_key k (without_gaps D).
Proof.
  rewrite getDataSegments_concat, !with_key_without_gaps.
  by rewrite sortBy_x_stable.
Qed.

(** C9.  The Segmenter is deterministic and stable.  Run on two stores whose
    input arrays hold the same points, it returns arrays holding the same
    segments, whatever else the stores hold; and for every value [k] of [x]
    the points of the output with that [x] are the points of the input with
    that [x] that are not gaps, in their input order. *)
Theorem getDataSegments_deterministic_stable
    (h1 h2 : store) (a1 a2 : loc) (D : list datum) :
  h1 !! a1 = Some (DataArray D) →
  h2 !! a2 = Some (DataArray D) →
  (∃ r1 h1' r2 h2',
      getDataSegments_store a1 h1 = Some (r1, h1') ∧
      getDataSegments_store a2 h2 = Some (r2, h2') ∧
      read_segments h1' r1 = Some (getDataSegments D) ∧
      read_segments h2' r2 = Some (getDataSegments D)) ∧
  (∀ k, with_key k (concat (getDataSegments D)) = with_key k (without_gaps D)).
Proof.
  intros H1 H2. split.
  - destruct (getDataSegments_store_spec h1 a1 D H1) as (r1 & e1 & ? & Hr1 & _ & _ & _ & Hs1).
    destruct (getDataSegments_store_spec h2 a2 D H2) as (r2 & e2 & ? & Hr2 & _ & _ & _ & Hs2).
    by exists r1, (h1 ++ e1), r2, (h2 ++ e2).
  - intros k. apply getDataSegments_with_key.
Qed.

(** C10.  The Segmenter does not change the array it is given.  Run on a
    store whose cell [dataset] holds the array [D], it returns; afterwards
    the cell [dataset] holds [D] still (same length, same order, same
    points), every other cell that existed holds what it held; the array
    returned and the segments it refers to are cells that did not exist
    before. *)
Theorem getDataSegments_input_unchanged
    (h : store) (dataset : loc) (D : list datum) :
  h !! dataset = Some (DataArray D) →
  ∃ r h' refs,
    getDataSegments_store dataset h = Some (r, h') ∧
    h' !! dataset = Some (DataArray D) ∧
    (∀ l c, h !! l = Some c → h' !! l = Some c) ∧
    h' !! r = Some (RefArray refs) ∧
    h !! r = None ∧
    Forall (fun s => h !! s = None) refs ∧
    read_segments h' r = Some (getDataSegments D).
Proof.
  intros Hd.
  destruct (getDataSegments_store_spec h dataset D Hd)
    as (r & ext & refs & Hrun & Hr & Hfresh & Hrefs & Hsegs).
  exists r, (h ++ ext), refs.
  split; [done|]. split; [by apply lookup_app_l_Some|].
  split; [intros l c Hl; by apply lookup_app_l_Some|].
  split; [done|]. split; [by apply lookup_ge_None|].
  split; [|done].
  eapply Forall_impl; [exact Hrefs|]. intros s Hs. by apply lookup_ge_None.
Qed.

End SegmenterClaims.

(** ** lodash's merges *)

Module LodashFacts.

Lemma lookup_assign2 (o s : obj) (k : string) :
  assign2 o s !! k = overrides (s !! k) (o !! k).
Proof.
  unfold assign2. rewrite lookup_union.
  by destruct (s !! k), (o !! k).
Qed.

Lemma lookup_assign_snoc (o : obj) (sources : list value) (s : value) (k : string) :
  assign o (sources ++ [s]) !! k
  = overrides (own_props s !! k) (assign o sources !! k).
Proof. unfold assign. rewrite foldl_app. simpl. apply lookup_assign2. Qed.

Lemma lookup_assign_nil (o : obj) (k : string) : assign o [] !! k = o !! k.
Proof. reflexivity. Qed.

Lemma lookup_assign1 (o : obj) (s1 : value) (k : string) :
  assign o [s1] !! k = overrides (own_props s1 !! k) (o !! k).
Proof. apply (lookup_assign_snoc o [] s1 k). Qed.

Lemma lookup_assign3 (o : obj) (s1 s2 s3 : value) (k : string) :
  assign o [s1; s2; s3] !! k
  = overrides (own_props s3 !! k)
      (overrides (own_props s2 !! k)
         (overrides (own_props s1 !! k) (o !! k))).
Proof.
  change [s1; s2; s3] with ([s1; s2] ++ [s3]).
  rewrite lookup_assign_snoc.
  change [s1; s2] with ([s1] ++ [s2]).
  by rewrite lookup_assign_snoc, lookup_assign1.
Qed.

Lemma lookup_defaults2 (o s : obj) (k : string) :
  defaults2 o s !! k = defaults_pick (o !! k) (s !! k).
Proof.
  unfold defaults2. rewrite lookup_merge.
  by destruct (o !! k), (s !! k).
Qed.

Lemma lookup_defaults_two (o : obj) (s1 s2 : value) (k : string) :
  defaults o [s1; s2] !! k
  = defaults_pick (defaults_pick (o !! k) (own_props s1 !! k)) (own_props s2 !! k).
Proof. unfold defaults. simpl. by rewrite !lookup_defaults2. Qed.

End LodashFacts.

Module StyleFacts.
Import VictoryLine LodashFacts Geometry.

(** What a property reads as after [defaults(o, s1, s2)]: the first of [o],
    [s1], [s2] in which it is not [undefined]. *)
Lemma get_defaults_two (o : obj) (s1 s2 : value) (k : string) :
  get (defaults o [s1; s2]) k
  = if is_undefined (get o k)
    then if is_undefined (getv s1 k) then getv s2 k else getv s1 k
    else get o k.
Proof.
  unfold getv, get. rewrite lookup_defaults_two.
  destruct (o !! k) as [[]|], (own_props s1 !! k) as [[]|],
    (own_props s2 !! k) as [[]|]; reflexivity.
Qed.

Lemma defaultStyles_parent : get defaultStyles "parent" = VUndefined.
Proof. reflexivity. Qed.

Lemma defaultStyles_line : get defaultStyles "line" = VUndefined.
Proof. reflexivity. Qed.

Lemma getv_undefined k : getv VUndefined k = VUndefined.
Proof. reflexivity. Qed.

Lemma get_empty k : get ∅ k = VUndefined.
Proof. reflexivity. Qed.

Lemma get_insert_eq (o : obj) k v : get (<[k := v]> o) k = v.
Proof. unfold get. by rewrite lookup_insert_eq. Qed.

Lemma get_insert_ne (o : obj) k k' v : k ≠ k' → get (<[k := v]> o) k' = get o k'.
Proof. intros Hk. unfold get. by rewrite lookup_insert_ne. Qed.

Lemma getStyles_parent_eq (p : Props) :
  style_parent (getStyles p)
  = defaults (<["width" := VStr "100%"]> (<["height" := VStr "auto"]> ∅))
      [getv (or_else (style p) (VObj ∅)) "parent"; get defaultStyles "parent"].
Proof. reflexivity. Qed.

Lemma getStyles_data_eq (p : Props) :
  style_data (getStyles p)
  = defaults ∅ [getv (or_else (style p) (VObj ∅)) "data"; get defaultStyles "data"].
Proof. reflexivity. Qed.

Lemma getStyles_labels_eq (p : Props) :
  style_labels (getStyles p)
  = defaults ∅ [getv (or_else (style p) (VObj ∅)) "labels";
                get defaultStyles "labels"].
Proof. reflexivity. Qed.

Lemma getStyles_line_eq (p : Props) :
  style_line (getStyles p)
  = defaults ∅ [getv (or_else (style p) (VObj ∅)) "line"; get defaultStyles "line"].
Proof. reflexivity. Qed.

Lemma getStyles_labels_get (p : Props) (k : string) :
  get (style_labels (getStyles p)) k
  = if is_undefined (getv (getv (or_else (style p) (VObj ∅)) "labels") k)
    then getv (get defaultStyles "labels") k
    else getv (getv (or_else (style p) (VObj ∅)) "labels") k.
Proof. by rewrite getStyles_labels_eq, get_defaults_two, get_empty. Qed.

Lemma getStyles_data_get (p : Props) (k : string) :
  get (style_data (getStyles p)) k
  = if is_undefined (getv (getv (or_else (style p) (VObj ∅)) "data") k)
    then getv (get defaultStyles "data") k
    else getv (getv (or_else (style p) (VObj ∅)) "data") k.
Proof. by rewrite getStyles_data_eq, get_defaults_two, get_empty. Qed.

Lemma getStyles_line_get (p : Props) (k : string) :
  get (style_line (getStyles p)) k
  = getv (getv (or_else (style p) (VObj ∅)) "line") k.
Proof.
  rewrite getStyles_line_eq, get_defaults_two, get_empty, defaultStyles_line.
  rewrite getv_undefined. simpl is_undefined. cbv iota.
  by destruct (getv _ k).
Qed.

Section WithHelpers.
Context `{HelpersAPI}.

(** The object [getLabelStyle] evaluates. *)
Lemma getLabelStyle_object (st : styles) (datum : value) :
  getLabelStyle st datum
  = evaluateStyle
      (VObj (defaults ∅
               [VObj (style_labels st);
                VObj (<["fill" := get (style_line st) "stroke"]>
                      (<["padding" := or_else (get (style_labels st) "padding")
                                        (VNum 0)]> ∅))]))
      datum.
Proof. reflexivity. Qed.

Lemma labelStyle_fill (st : styles) :
  get (defaults ∅
         [VObj (style_labels st);
          VObj (<["fill" := get (style_line st) "stroke"]>
                (<["padding" := or_else (get (style_labels st) "padding")
                                  (VNum 0)]> ∅))]) "fill"
  = if is_undefined (get (style_labels st) "fill")
    then get (style_line st) "stroke"
    else get (style_labels st) "fill".
Proof.
  rewrite get_defaults_two, get_empty. simpl is_undefined. cbv iota.
  unfold getv. simpl own_props. by rewrite get_insert_eq.
Qed.

Lemma labelStyle_padding (st : styles) :
  get (defaults ∅
         [VObj (style_labels st);
          VObj (<["fill" := get (style_line st) "stroke"]>
                (<["padding" := or_else (get (style_labels st) "padding")
                                  (VNum 0)]> ∅))]) "padding"
  = if is_undefined (get (style_labels st) "padding")
    then VNum 0
    else get (style_labels st) "padding".
Proof.
  rewrite get_defaults_two, get_empty. simpl is_undefined. cbv iota.
  unfold getv. simpl own_props.
  rewrite get_insert_ne by done. rewrite get_insert_eq.
  by destruct (get (style_labels st) "padding").
Qed.

Lemma labelStyle_other (st : styles) (k : string) :
  k ≠ "fill" → k ≠ "padding" →
  defaults ∅
    [VObj (style_labels st);
     VObj (<["fill" := get (style_line st) "stroke"]>
           (<["padding" := or_else (get (style_labels st) "padding")
                             (VNum 0)]> ∅))] !! k
  = style_labels st !! k.
Proof.
  intros Hf Hp. rewrite lookup_defaults_two. simpl own_props.
  rewrite lookup_empty, !lookup_insert_ne, lookup_empty by done.
  by destruct (style_labels st !! k) as [[]|].
Qed.

End WithHelpers.

End StyleFacts.

(** ** Markers and labels *)

Module MapFacts.
Import VictoryLine.
#[local] Open Scope nat_scope.

Lemma bind_Ret {A B} (m : result A) (k : A → result B) (b : B) :
  m ≫= k = Ret b ↔ ∃ a, m = Ret a ∧ k a = Ret b.
Proof.
  destruct m as [e|a]; simpl.
  - split; [done|]. by intros (a & ? & _).
  - split; [by exists a|]. by intros (a' & [= <-] & ?).
Qed.

Lemma Ret_inj {A} (a b : A) : Ret a = Ret b → a = b.
Proof. by intros [= ->]. Qed.

Lemma map_from_cons {A B} (f : nat → A → result B) (i : nat) (a : A) (l : list A) :
  map_from f i (a :: l)
  = (b ← f i a; bs ← map_from f (S i) l; mret (b :: bs)).
Proof. reflexivity. Qed.

(** What a completed map holds: under each index the callback's result. *)
Lemma map_from_Ret {A B} (f : nat → A → result B) (i : nat) (l : list A)
    (bs : list B) :
  map_from f i l = Ret bs →
  Forall2 (fun a b => ∃ j, f j a = Ret b) l bs ∧
  ∀ j a, l !! j = Some a → ∃ b, bs !! j = Some b ∧ f (i + j) a = Ret b.
Proof.
  revert i bs. induction l as [|a l IH]; intros i bs.
  - intros [= <-]. split; [constructor|]. intros j a Hj. done.
  - rewrite map_from_cons. intros Hrun.
    apply bind_Ret in Hrun as (b & Hb & Hrun).
    apply bind_Ret in Hrun as (bs' & Hbs & [= <-]).
    destruct (IH _ _ Hbs) as [Hall Hlook]. split.
    + constructor; [by exists i|done].
    + intros [|j] a' Hj.
      * injection Hj as <-. exists b. by rewrite Nat.add_0_r.
      * destruct (Hlook j a' Hj) as (b' & ? & ?). exists b'.
        by rewrite Nat.add_succ_r.
Qed.

(** The map completes when the callback returns on every element. *)
Lemma map_from_returns {A B} (f : nat → A → result B) (i : nat) (l : list A) :
  Forall (fun a => ∀ j, ∃ b, f j a = Ret b) l →
  ∃ bs, map_from f i l = Ret bs.
Proof.
  intros Hall. revert i. induction Hall as [|a l Ha _ IH]; intros i.
  - by exists [].
  - destruct (Ha i) as [b Hb]. destruct (IH (S i)) as [bs Hbs].
    exists (b :: bs). by rewrite map_from_cons, Hb, Hbs.
Qed.

(** The first exception ends the map: when every call of the callback
    returns or throws a [TypeError], and it throws on some element, the map
    throws a [TypeError]. *)
Lemma map_from_throws {A B} (f : nat → A → result B) (i : nat) (l : list A) :
  Forall (fun a => ∀ j, (∃ b, f j a = Ret b) ∨
                        (∃ msg, f j a = Throw (TypeError msg))) l →
  Exists (fun a => ∀ j b, f j a ≠ Ret b) l →
  ∃ msg, map_from f i l = Throw (TypeError msg).
Proof.
  intros Hall. revert i. induction Hall as [|a l Ha _ IH]; intros i Hex.
  - by apply Exists_nil in Hex.
  - rewrite map_from_cons. destruct (Ha i) as [[b Hb]|[msg Hmsg]].
    + rewrite Hb. simpl. apply Exists_cons in Hex as [Hthrow|Hex].
      * by destruct (Hthrow i b).
      * destruct (IH (S i) Hex) as [msg Hmsg]. exists msg. by rewrite Hmsg.
    + exists msg. by rewrite Hmsg.
Qed.

(** A map whose callback returns the same value on every element. *)
Lemma map_from_const {A B} (f : nat → A → result B) (i : nat) (l : list A) (b : B) :
  Forall (fun a => ∀ j, f j a = Ret b) l →
  map_from f i l = Ret (replicate (length l) b).
Proof.
  intros Hall. revert i. induction Hall as [|a l Ha _ IH]; intros i; [done|].
  by rewrite map_from_cons, Ha, IH.
Qed.

End MapFacts.

Section LayoutFacts.
Context `{ChartAPI}.
Import VictoryLine LodashFacts MapFacts Geometry.

(** The label style is a fresh object, so its evaluation returns. *)
Lemma getLabelStyle_returns (st : styles) (datum : value) :
  ∃ labelStyle, getLabelStyle st datum = Ret labelStyle ∧
                is_nullish labelStyle = false.
Proof. unfold getLabelStyle. by apply evaluateStyle_returns. Qed.

(** A marker whose style evaluates. *)
Lemma renderMarker_returns (this : This) (p : Props) (c : calculatedProps)
    (datum : datum) (index : nat) (style : value) :
  evaluateStyle (style_markers (calc_style c)) (datum_value datum) = Ret style →
  ∃ markerProps events,
    markerProps
    = assign (markerLiteral style index)
        [VObj (sharedProps c datum index);
         VObj (cprops (markerComponent p));
         at_index (markersState (state this)) index] ∧
    renderMarker this p c datum index
    = Ret (CloneElement (markerComponent p)
             (assign {[ "events" := events ]} [VObj markerProps])).
Proof.
  intros Hstyle. eexists.
  exists (markerEvents this p index
            (assign (markerLiteral style index)
               [VObj (sharedProps c datum index);
                VObj (cprops (markerComponent p));
                at_index (markersState (state this)) index])).
  split; [reflexivity|].
  unfold renderMarker, markerProps. rewrite Hstyle. reflexivity.
Qed.

(** Without a marker style the marker's props throw. *)
Lemma renderMarker_throws (this : This) (p : Props) (c : calculatedProps)
    (datum : datum) (index : nat) :
  is_nullish (style_markers (calc_style c)) = true →
  ∃ msg, renderMarker this p c datum index = Throw (TypeError msg).
Proof.
  intros Hnull.
  destruct (evaluateStyle_nullish _ (datum_value datum) Hnull) as [msg Hmsg].
  exists msg. unfold renderMarker, markerProps. by rewrite Hmsg.
Qed.

Lemma renderLabel_returns (this : This) (p : Props) (c : calculatedProps)
    (datum : datum) (index : nat) (text : value) :
  ∃ labelStyle labelProps events,
    getLabelStyle (calc_style c) (datum_value datum) = Ret labelStyle ∧
    labelProps
    = assign (labelLiteral labelStyle index text)
        [VObj (cprops (labelComponent p));
         VObj (sharedProps c datum index);
         at_index (labelsState (state this)) index] ∧
    renderLabel this p c datum index text
    = Ret (CloneElement (labelComponent p)
             (assign labelProps [VObj {[ "events" := events ]}])).
Proof.
  destruct (getLabelStyle_returns (calc_style c) (datum_value datum))
    as (labelStyle & Hstyle & _).
  exists labelStyle. eexists.
  exists (labelEvents this p index
            (assign (labelLiteral labelStyle index text)
               [VObj (cprops (labelComponent p));
                VObj (sharedProps c datum index);
                at_index (labelsState (state this)) index])).
  split; [exact Hstyle|]. split; [reflexivity|].
  unfold renderLabel, labelProps. rewrite Hstyle. reflexivity.
Qed.

Lemma marker_config_lookup (literal shared component : obj) (override events : value)
    (k : string) :
  k ≠ "events" →
  assign {[ "events" := events ]}
    [VObj (assign literal [VObj shared; VObj component; override])] !! k
  = overrides (own_props override !! k)
      (overrides (component !! k) (overrides (shared !! k) (literal !! k))).
Proof.
  intros Hk. rewrite lookup_assign1. cbn [own_props].
  rewrite lookup_assign3. cbn [own_props].
  rewrite lookup_singleton_ne by done.
  by destruct (own_props _ !! k), (component !! k), (shared !! k), (literal !! k).
Qed.

Lemma label_config_lookup (literal shared component : obj) (override events : value)
    (k : string) :
  k ≠ "events" → shared !! k = None →
  assign (assign literal [VObj component; VObj shared; override])
    [VObj {[ "events" := events ]}] !! k
  = overrides (own_props override !! k)
      (overrides (component !! k) (literal !! k)).
Proof.
  intros Hk Hshared. rewrite lookup_assign1. cbn [own_props].
  rewrite lookup_assign3. cbn [own_props].
  rewrite lookup_singleton_ne, Hshared by done.
  by destruct (own_props _ !! k), (component !! k), (literal !! k).
Qed.

Lemma sharedProps_other (c : calculatedProps) (datum : datum) (index : nat)
    (k : string) :
  ¬ shared_or_events k → k ≠ "events" ∧ sharedProps c datum index !! k = None.
Proof.
  unfold shared_or_events. intros Hk.
  rewrite !elem_of_cons, elem_of_nil in Hk.
  split; [intros ->; tauto|].
  unfold sharedProps.
  rewrite !lookup_insert_ne, lookup_empty; [done|intros <-; tauto..].
Qed.

(** The callback on a gap: [undefined], before anything is evaluated. *)
Lemma renderPoint_gap (this : This) (p : Props) (c : calculatedProps)
    (index : nat) (datum : datum) :
  isGap datum = true → renderPoint this p c index datum = Ret None.
Proof. intros Hgap. unfold renderPoint. by rewrite Hgap. Qed.

(** The callback on a point with a [y], when the marker's style
    evaluates. *)
Lemma renderPoint_nongap (this : This) (p : Props) (c : calculatedProps)
    (index : nat) (datum : datum) :
  isGap datum = false →
  is_nullish (style_markers (calc_style c)) = false →
  ∃ marker label,
    renderMarker this p c datum index = Ret marker ∧
    renderLabel this p c datum index (getLabelText p datum index) = Ret label ∧
    renderPoint this p c index datum
    = Ret (Some (if truthy (getLabelText p datum index) || labels_is_true this
                 then MarkerGroup ("marker-group-" ++ pretty index) marker label
                 else marker)).
Proof.
  intros Hgap Hstyle.
  destruct (evaluateStyle_returns _ (datum_value datum) Hstyle)
    as (style & Hev & _).
  destruct (renderMarker_returns this p c datum index style Hev)
    as (mp & ev & _ & Hmarker).
  destruct (renderLabel_returns this p c datum index (getLabelText p datum index))
    as (ls & lp & lev & _ & _ & Hlabel).
  eexists _, _. split; [exact Hmarker|]. split; [exact Hlabel|].
  unfold renderPoint. rewrite Hgap, Hmarker. simpl.
  destruct (truthy _ || _); [|done]. by rewrite Hlabel.
Qed.

(** The callback on a point with a [y], without a marker style. *)
Lemma renderPoint_throws (this : This) (p : Props) (c : calculatedProps)
    (index : nat) (datum : datum) :
  isGap datum = false →
  is_nullish (style_markers (calc_style c)) = true →
  ∃ msg, renderPoint this p c index datum = Throw (TypeError msg).
Proof.
  intros Hgap Hstyle.
  destruct (renderMarker_throws this p c datum index Hstyle) as [msg Hmsg].
  exists msg. unfold renderPoint. by rewrite Hgap, Hmsg.
Qed.

Lemma renderPoint_node (this : This) (p : Props) (c : calculatedProps)
    (index : nat) (datum : datum) (node : option element) :
  renderPoint this p c index datum = Ret node →
  isGap datum = true ↔ node = None.
Proof.
  unfold renderPoint. destruct (isGap datum).
  - intros [= <-]. done.
  - intros Hrun. split; [done|]. intros ->.
    apply bind_Ret in Hrun as (marker & _ & Hrun).
    destruct (truthy _ || _); [|done].
    by apply bind_Ret in Hrun as (label & _ & ?).
Qed.

Lemma renderMarkersAndLabels_returns (this : This) (p : Props)
    (c : calculatedProps) :
  is_nullish (style_markers (calc_style c)) = false →
  ∃ nodes, renderMarkersAndLabels this p c = Ret nodes.
Proof.
  intros Hstyle. apply map_from_returns, Forall_forall. intros datum _ j.
  destruct (isGap datum) eqn:Hgap.
  - exists None. by apply renderPoint_gap.
  - destruct (renderPoint_nongap this p c j datum Hgap Hstyle)
      as (marker & label & _ & _ & Hrun). by eexists.
Qed.

Lemma renderMarkersAndLabels_nodes (this : This) (p : Props)
    (c : calculatedProps) (nodes : list (option element)) :
  renderMarkersAndLabels this p c = Ret nodes →
  Forall2 (fun datum node => isGap datum = true ↔ node = None) (dataset c) nodes.
Proof.
  intros Hrun. apply map_from_Ret in Hrun as [Hall _].
  eapply Forall2_impl; [exact Hall|]. simpl.
  intros datum node [j Hj]. by apply renderPoint_node in Hj.
Qed.

Lemma renderMarkersAndLabels_lookup (this : This) (p : Props)
    (c : calculatedProps) (nodes : list (option element)) (index : nat)
    (datum : datum) :
  renderMarkersAndLabels this p c = Ret nodes →
  dataset c !! index = Some datum →
  ∃ node, nodes !! index = Some node ∧
          renderPoint this p c index datum = Ret node.
Proof.
  intros Hrun Hd. apply map_from_Ret in Hrun as [_ Hlook].
  apply (Hlook index datum Hd).
Qed.

Lemma renderMarkersAndLabels_all_gaps (this : This) (p : Props)
    (c : calculatedProps) :
  Forall gap (dataset c) →
  renderMarkersAndLabels this p c = Ret (replicate (length (dataset c)) None).
Proof.
  intros Hall. apply map_from_const.
  eapply Forall_impl; [exact Hall|]. simpl. intros datum Hgap j.
  by apply renderPoint_gap.
Qed.

Lemma renderMarkersAndLabels_throws_nongap (this : This) (p : Props)
    (c : calculatedProps) :
  is_nullish (style_markers (calc_style c)) = true →
  Exists nongap (dataset c) →
  ∃ msg, renderMarkersAndLabels this p c = Throw (TypeError msg).
Proof.
  intros Hstyle Hex. apply map_from_throws.
  - apply Forall_forall. intros datum _ j.
    destruct (isGap datum) eqn:Hgap.
    + left. exists None. by apply renderPoint_gap.
    + right. by apply renderPoint_throws.
  - eapply Exists_impl; [exact Hex|]. simpl. intros datum Hgap j node Hrun.
    destruct (renderPoint_throws this p c j datum Hgap Hstyle) as [msg Hmsg].
    congruence.
Qed.

End LayoutFacts.

Section LayoutClaims.
Context `{ChartAPI}.
Import VictoryLine LodashFacts SegmenterFacts MapFacts Geometry.

(** C2.  On [[{x:1,y:1},{x:2,y:null},{x:3,y:3}]] the Segmenter returns the
    two segments [[{x:1,y:1}]] and [[{x:3,y:3}]].  In the marker and label
    step the callback returns [undefined] for a point whose [y] is [null] or
    [undefined], before it evaluates anything else; so whenever the step
    returns, it holds nothing for a point exactly when the point is such a
    gap.  It returns when [style.markers] is a style: on the three points it
    then holds an element for the first and the third and nothing for the
    point at [x = 2].  With the style [getStyles] builds, which has no
    [markers], it throws on the first point and produces no element at
    all. *)
Theorem gap_points_render_nothing (this : This) (p : Props) (c : calculatedProps) :
  getDataSegments Plain.scenarioA
  = [[mkDatum 1 (VNum 1) VUndefined]; [mkDatum 3 (VNum 3) VUndefined]] ∧
  (∀ index datum, is_nullish (y datum) = true →
                  renderPoint this p c index datum = Ret None) ∧
  (∀ nodes, renderMarkersAndLabels this p c = Ret nodes →
            Forall2 (fun datum node => is_nullish (y datum) = true ↔ node = None)
              (dataset c) nodes) ∧
  (is_nullish (style_markers (calc_style c)) = false →
   ∃ nodes, renderMarkersAndLabels this p c = Ret nodes) ∧
  (∀ sc st, is_nullish (style_markers st) = false →
            ∃ first third,
              renderMarkersAndLabels this p
                {| dataset := Plain.scenarioA;
                   dataSegments := getDataSegments Plain.scenarioA;
                   scale := sc; calc_style := st |}
              = Ret [Some first; None; Some third]) ∧
  (∀ sc q, ∃ msg,
      renderMarkersAndLabels this p
        {| dataset := Plain.scenarioA;
           dataSegments := getDataSegments Plain.scenarioA;
           scale := sc; calc_style := getStyles q |}
      = Throw (TypeError msg)).
Proof.
  split; [reflexivity|].
  split; [intros index datum Hgap; by apply renderPoint_gap|].
  split; [apply renderMarkersAndLabels_nodes|].
  split; [apply renderMarkersAndLabels_returns|]. split.
  - intros sc st Hstyle.
    set (c' := {| dataset := Plain.scenarioA;
                  dataSegments := getDataSegments Plain.scenarioA;
                  scale := sc; calc_style := st |}).
    destruct (renderMarkersAndLabels_returns this p c' Hstyle) as [nodes Hrun].
    pose proof (renderMarkersAndLabels_nodes this p c' nodes Hrun) as Hall.
    rewrite Hrun. simpl in Hall.
    apply Forall2_cons_inv_l in Hall as (n1 & nodes1 & H1 & Hall & ->).
    apply Forall2_cons_inv_l in Hall as (n2 & nodes2 & H2 & Hall & ->).
    apply Forall2_cons_inv_l in Hall as (n3 & nodes3 & H3 & Hall & ->).
    apply Forall2_nil_inv_l in Hall as ->.
    destruct n1 as [first|]; [|by destruct H1 as [_ H1]; specialize (H1 eq_refl)].
    destruct n3 as [third|]; [|by destruct H3 as [_ H3]; specialize (H3 eq_refl)].
    destruct H2 as [H2 _]. rewrite (H2 eq_refl). by eexists _, _.
  - intros sc q. apply renderMarkersAndLabels_throws_nongap; [done|].
    by apply Exists_cons_hd.
Qed.

(** C3, as the code has it.  The props of a marker and of a label are merged
    property by property, a later source winning.  Marker: the literal [key]
    and evaluated [style], then the shared fields [index], [datum], [x], [y],
    then the marker component's own props, then the stored override
    [markersState[index]].  Label: the literal [key], [dy], [textAnchor],
    [verticalAnchor], [style], [text], then the label component's own
    props, then the stored override [labelsState[index]].  So a component's
    own prop wins over a computed field, and the stored override wins over
    both.  (Stated for every prop but [events], and for the label also but
    the shared fields; the marker's style has to evaluate: [style.markers]
    is neither [null] nor [undefined].) *)
Theorem element_props_precedence (this : This) (p : Props) (c : calculatedProps)
    (datum : datum) (index : nat) (text : value) (k : string) :
  is_nullish (style_markers (calc_style c)) = false →
  ∃ style labelStyle markerConfig labelConfig,
    evaluateStyle (style_markers (calc_style c)) (datum_value datum) = Ret style ∧
    getLabelStyle (calc_style c) (datum_value datum) = Ret labelStyle ∧
    renderMarker this p c datum index
    = Ret (CloneElement (markerComponent p) markerConfig) ∧
    renderLabel this p c datum index text
    = Ret (CloneElement (labelComponent p) labelConfig) ∧
    (k ≠ "events" →
     markerConfig !! k
     = overrides (own_props (at_index (markersState (state this)) index) !! k)
         (overrides (cprops (markerComponent p) !! k)
            (overrides (sharedProps c datum index !! k)
               (markerLiteral style index !! k)))) ∧
    (¬ shared_or_events k →
     labelConfig !! k
     = overrides (own_props (at_index (labelsState (state this)) index) !! k)
         (overrides (cprops (labelComponent p) !! k)
            (labelLiteral labelStyle index text !! k))).
Proof.
  intros Hstyle.
  destruct (evaluateStyle_returns _ (datum_value datum) Hstyle)
    as (style & Hev & _).
  destruct (renderMarker_returns this p c datum index style Hev)
    as (mp & mev & -> & Hmarker).
  destruct (renderLabel_returns this p c datum index text)
    as (labelStyle & lp & lev & Hls & -> & Hlabel).
  eexists style, labelStyle, _, _.
  split; [exact Hev|]. split; [exact Hls|].
  split; [exact Hmarker|]. split; [exact Hlabel|]. split.
  - intros Hk. by apply marker_config_lookup.
  - intros Hk. apply (sharedProps_other c datum index) in Hk as [Hk Hshared].
    by apply label_config_lookup.
Qed.

(** C8, as the code has it.  For a point at [index] that is not a gap: the
    label text is the point's own [label] when that is truthy; otherwise it
    is [labels[index]] when the [labels] prop is an array, and the [labels]
    prop evaluated on the point when it is not.  Where the marker's style
    evaluates ([style.markers] is neither [null] nor [undefined]) the step
    returns, and for the point it holds the marker alone when the text is
    falsy and [labels] is not [true]; otherwise a group of the marker and a
    label that carries the text. *)
Theorem label_text_and_visibility (this : This) (c : calculatedProps)
    (index : nat) (datum : datum) :
  dataset c !! index = Some datum →
  is_nullish (y datum) = false →
  is_nullish (style_markers (calc_style c)) = false →
  let p := props this in
  let text := getLabelText p datum index in
  (truthy (label datum) = true → text = label datum) ∧
  (truthy (label datum) = false →
     ∀ l, labels p = VArr l → text = default VUndefined (l !! index)) ∧
  (truthy (label datum) = false →
     (∀ l, labels p ≠ VArr l) → text = evaluateProp (labels p) (datum_value datum)) ∧
  ∃ nodes marker,
    renderMarkersAndLabels this p c = Ret nodes ∧
    renderMarker this p c datum index = Ret marker ∧
    (truthy text = false → labels p ≠ VBool true →
       nodes !! index = Some (Some marker)) ∧
    (truthy text = true ∨ labels p = VBool true →
       ∃ labelConfig,
         nodes !! index
         = Some (Some (MarkerGroup ("marker-group-" ++ pretty index) marker
                         (CloneElement (labelComponent p) labelConfig))) ∧
         labelConfig !! "text"
         = overrides (own_props (at_index (labelsState (state this)) index) !! "text")
             (overrides (cprops (labelComponent p) !! "text") (Some text))).
Proof.
  intros Hd Hy Hstyle p text.
  assert (isGap datum = false) as Hgap by done.
  split; [|split; [|split]].
  - intros Ht. subst text. unfold getLabelText, or_else. by rewrite Ht.
  - intros Ht l Hl. subst text. unfold getLabelText, or_else. by rewrite Ht, Hl.
  - intros Ht Hl. subst text. unfold getLabelText, or_else. rewrite Ht.
    destruct (labels p) eqn:E; try done. by destruct (Hl elems).
  - destruct (renderMarkersAndLabels_returns this p c Hstyle) as [nodes Hrun].
    destruct (renderMarkersAndLabels_lookup this p c nodes index datum Hrun Hd)
      as (node & Hnode & Hpoint).
    destruct (renderPoint_nongap this p c index datum Hgap Hstyle)
      as (marker & label' & Hmarker & Hlabel & Hpoint').
    rewrite Hpoint in Hpoint'. injection Hpoint' as ->. fold text in Hnode, Hlabel.
    exists nodes, marker. split; [done|]. split; [done|]. split.
    + intros Ht Hl. rewrite Hnode, Ht. simpl.
      assert (labels_is_true this = false) as ->; [|done].
      unfold labels_is_true. fold p. destruct (labels p) as [| |[]| | | | |]; done.
    + intros Ht.
      destruct (renderLabel_returns this p c datum index text)
        as (labelStyle & lp & lev & Hls & -> & Hlabel2).
      rewrite Hlabel in Hlabel2. apply Ret_inj in Hlabel2 as ->.
      eexists. split.
      * rewrite Hnode.
        assert (truthy text || labels_is_true this = true) as ->; [|reflexivity].
        destruct Ht as [->|Hl]; [done|].
        unfold labels_is_true. fold p. rewrite Hl. apply orb_true_r.
      * rewrite label_config_lookup; [|done|].
        -- assert (labelLiteral labelStyle index text !! "text" = Some text)
             as ->; [|done].
           unfold labelLiteral. do 5 (rewrite lookup_insert_ne by done).
           by rewrite lookup_insert_eq.
        -- unfold sharedProps. by rewrite !lookup_insert_ne, lookup_empty.
Qed.

End LayoutClaims.

(** ** Rendering: exceptions, the label's colour, the transition wrapper *)

Section RenderFacts.
Context `{ChartAPI}.
Import VictoryLine LodashFacts SortFacts SegmenterFacts MapFacts Geometry.

Lemma without_gaps_all_gaps (l : list datum) :
  Forall (fun d => isGap d = true) l → without_gaps l = [].
Proof.
  induction 1 as [|d l Hd _ IH]; [done|].
  by rewrite without_gaps_cons, Hd.
Qed.

(** A dataset without a single [y] has no segment. *)
Lemma getDataSegments_all_gaps (D : list datum) :
  Forall (fun d => isGap d = true) D → getDataSegments D = [].
Proof.
  intros Hall.
  pose proof (getDataSegments_concat D) as Hcat.
  rewrite without_gaps_all_gaps in Hcat by (by rewrite sortBy_x_perm).
  pose proof (getDataSegments_segments D) as Hsegs.
  destruct (getDataSegments D) as [|s segs]; [done|].
  apply Forall_cons in Hsegs as [[Hne _] _].
  simpl in Hcat. apply app_eq_nil in Hcat as [-> _]. done.
Qed.

(** With a truthy [seriesLabel] and no segment, [lastPoint] is [undefined]
    and reading its [x] throws. *)
Lemma renderSeriesLabel_throws (this : This) (p : Props) (c : calculatedProps) :
  truthy (seriesLabel p) = true → dataSegments c = [] →
  renderSeriesLabel this p c
  = Throw (TypeError "Cannot read property 'x' of null or undefined").
Proof.
  intros Hlabel Hsegs. unfold renderSeriesLabel. by rewrite Hlabel, Hsegs.
Qed.

(** [renderData], by what the marker and label step does. *)
Lemma renderData_bind (this : This) (p : Props) (st : styles) :
  let c := {| dataset := getData p;
              dataSegments := getDataSegments (getData p);
              scale := {| scale_x := buildScale p "x" (getDomain p "x") (getRange p "x");
                          scale_y := buildScale p "y" (getDomain p "y") (getRange p "y") |};
              calc_style := st |} in
  renderData this p st
  = (markersAndLabels ← renderMarkersAndLabels this p c;
     seriesLabel ← renderSeriesLabel this p c;
     mret (DataGroup (style_parent st) (renderLine this p c) markersAndLabels
             seriesLabel)).
Proof. reflexivity. Qed.

Lemma renderData_throws_all_gaps (this : This) (p : Props) (st : styles) :
  truthy (seriesLabel p) = true →
  Forall (fun d => isGap d = true) (getData p) →
  renderData this p st
  = Throw (TypeError "Cannot read property 'x' of null or undefined").
Proof.
  intros Hlabel Hall. rewrite renderData_bind. cbv zeta.
  rewrite renderMarkersAndLabels_all_gaps by done. simpl.
  rewrite renderSeriesLabel_throws; [done|done|].
  simpl. by apply getDataSegments_all_gaps.
Qed.

Lemma renderData_throws_nongap (this : This) (p : Props) (st : styles) :
  is_nullish (style_markers st) = true →
  Exists nongap (getData p) →
  ∃ msg, renderData this p st = Throw (TypeError msg).
Proof.
  intros Hstyle Hex. rewrite renderData_bind. cbv zeta.
  edestruct renderMarkersAndLabels_throws_nongap as [msg Hmsg];
    [| |exists msg; by rewrite Hmsg]; done.
Qed.

(** Without [animate] the render is the chart itself. *)
Lemma render_not_animated (this : This) :
  truthy (animate (props this)) = false →
  render this
  = (data ← renderData this (props this) (getStyles (props this));
     mret (if truthy (standalone (props this))
           then Svg (style_parent (getStyles (props this)))
                  (width (props this)) (height (props this))
                  (get (events (props this)) "parent")
                  (Group (style_parent (getStyles (props this))) data)
           else Group (style_parent (getStyles (props this))) data)).
Proof. intros Ha. unfold render. by rewrite Ha. Qed.

End RenderFacts.

Section RenderClaims.
Context `{ChartAPI}.
Import VictoryLine LodashFacts StyleFacts.

(** C6.  With a truthy [animate] prop, [render] returns the transition
    wrapper around a [VictoryLine] with the same props, with the prop and
    the whitelist [data], [domain], [height], [padding], [samples], [style],
    [width], [x], [y].  The default exit transition starts from [{y: null}],
    which the Segmenter reads as a gap, also once written over a datum; the
    default enter transition starts from [{y: null}] and ends at the datum's
    own [y]; both last 500.  A render with a falsy [animate] never returns
    the wrapper. *)
Theorem animate_delegates_to_transition (this : This) :
  truthy (animate (props this)) = true →
  render this
  = Ret (VictoryTransition (animate (props this))
           ["data"; "domain"; "height"; "padding"; "samples"; "style";
            "width"; "x"; "y"]
           (VictoryLineElement (props this))) ∧
  (∀ datum : value,
      before onExit datum = {[ "y" := VNull ]} ∧
      is_nullish (get (before onExit datum) "y") = true ∧
      is_nullish (get (assign (own_props datum) [VObj (before onExit datum)]) "y")
      = true) ∧
  (∀ datum : value, before onEnter datum = {[ "y" := VNull ]}) ∧
  (∃ restore, after onEnter = Some restore ∧
              ∀ datum : value, restore datum = {[ "y" := getv datum "y" ]}) ∧
  after onExit = None ∧
  duration onExit = 500 ∧ duration onEnter = 500 ∧
  (∀ cleared : This,
      truthy (animate (props cleared)) = false →
      ∀ a w child, render cleared ≠ Ret (VictoryTransition a w child)).
Proof.
  intros Ha. split.
  { unfold render. by rewrite Ha. }
  split.
  { intros datum. split; [done|]. split; [done|].
    unfold get. rewrite lookup_assign1. simpl own_props.
    unfold onExit. simpl before. by rewrite lookup_singleton_eq. }
  split; [done|]. split; [by eexists|].
  split; [done|]. split; [done|]. split; [done|].
  intros cleared Hc a w child. rewrite render_not_animated by done.
  destruct (renderData cleared (props cleared) (getStyles (props cleared)))
    as [e|data]; simpl; [done|].
  unfold mret, result_ret. by destruct (truthy (standalone (props cleared))).
Qed.

(** C7, failing input.  With the props [data={[{x: 1, y: 1}]}],
    [labels={["a"]}] and [style={{data: {stroke: "red"}}}], the styles are
    those of [getStyles]: every line segment is drawn with the stroke
    ["red"], and the style that [getLabelStyle] builds and hands to
    [evaluateStyle] has the [fill] [undefined], not ["red"]; its [stroke] is
    ["transparent"].  It has no [verticalAnchor], and the label's props take
    ["end"] for a vertical anchor that is not given. *)
Theorem label_fill_is_not_the_line_stroke (this : This) (sc : scales)
    (datum : value) :
  let p := Plain.custom_props [Plain.point 1 (VNum 1)] (VArr [VStr "a"]) VUndefined
             (VObj {[ "data" := VObj {[ "stroke" := VStr "red" ]} ]})
             (labelComponent defaultProps) in
  let st := getStyles p in
  let c := {| dataset := getData p; dataSegments := getDataSegments (getData p);
              scale := sc; calc_style := st |} in
  Forall (fun e => ∃ lineProps events,
            e = LineSegment lineProps events ∧
            get (line_style lineProps) "stroke" = VStr "red")
    (renderLine this p c) ∧
  (∃ labelStyle : obj,
      getLabelStyle st datum = evaluateStyle (VObj labelStyle) datum ∧
      get (style_line st) "stroke" = VUndefined ∧
      get labelStyle "fill" = VUndefined ∧
      get labelStyle "stroke" = VStr "transparent" ∧
      get labelStyle "verticalAnchor" = VUndefined) ∧
  (∀ labelStyle index text,
      get (labelLiteral labelStyle index text) "verticalAnchor"
      = or_else (getv labelStyle "verticalAnchor") (VStr "end")).
Proof.
  cbv zeta. split; [|split].
  - apply Forall_forall. intros e He.
    apply list_elem_of_lookup in He as [i Hi]. unfold renderLine in Hi.
    rewrite list_lookup_imap in Hi. cbn [dataSegments] in Hi.
    destruct (getDataSegments _ !! i) as [s|]; [|done].
    injection Hi as <-. eexists _, _. split; [reflexivity|].
    vm_compute. reflexivity.
  - eexists. split; [apply getLabelStyle_object|].
    repeat split; vm_compute; reflexivity.
  - intros labelStyle index text. unfold labelLiteral.
    do 3 (rewrite get_insert_ne by done). by rewrite get_insert_eq.
Qed.

End RenderClaims.

(** ** Concrete charts *)

Section ConcreteCharts.
Import VictoryLine Plain Store.
#[local] Existing Instance Plain.helpers.
#[local] Existing Instance Plain.chart.

(** C3, counterexample.  [renderMarkersAndLabels] on a chart with one
    point, [labels = ["a"]], a label component that carries [text="custom"]
    and no stored override, called with a style whose [markers] is [{}]: the
    computed text is ["a"], the label is rendered with the text ["custom"],
    where the specified order (a computed field over a component's own prop)
    gives ["a"]. *)
Lemma component_text_beats_computed_text :
  let custom := {| ctype := "Label"; cprops := {[ "text" := VStr "custom" ]} |} in
  let p := custom_props [point 1 (VNum 1)] (VArr [VStr "a"]) VUndefined
             VUndefined custom in
  let this := componentWillMount p in
  let c := calculated_with_markers p (VObj ∅) in
  let datum := mkDatum 1 (VNum 1) VUndefined in
  dataset c = [datum] ∧
  getLabelText p datum 0 = VStr "a" ∧
  at_index (labelsState (state this)) 0 = VUndefined ∧
  (∃ marker labelConfig,
      renderMarkersAndLabels this p c
      = Ret [Some (MarkerGroup "marker-group-0" marker
                     (CloneElement custom labelConfig))] ∧
      labelConfig !! "text" = Some (VStr "custom")) ∧
  (∃ labelStyle,
      getLabelStyle (calc_style c) (datum_value datum) = Ret labelStyle ∧
      specified_merge
        (delete "style" (delete "text" (labelLiteral labelStyle 0 (VStr "a"))))
        (cprops custom)
        (<["style" := labelStyle]> (<["text" := VStr "a"]> (sharedProps c datum 0)))
        (own_props (at_index (labelsState (state this)) 0)) !! "text"
      = Some (VStr "a")).
Proof.
  cbv zeta.
  split; [reflexivity|]. split; [reflexivity|]. split; [reflexivity|]. split.
  - eexists _, _. split; [vm_compute; reflexivity|]. vm_compute. reflexivity.
  - eexists. split; [vm_compute; reflexivity|]. vm_compute. reflexivity.
Qed.

(** C8, counterexample.  A point whose own [label] is the empty string, on a
    chart with [labels = ["a"]]: the label field is present, and the label
    text is ["a"], not the point's own label. *)
Lemma empty_label_is_replaced :
  let p := line_props [labelled_point 1 (VNum 1) (VStr "")] (VArr [VStr "a"])
             VUndefined in
  let datum := mkDatum 1 (VNum 1) (VStr "") in
  getData p = [datum] ∧
  label datum = VStr "" ∧
  getLabelText p datum 0 = VStr "a" ∧
  getLabelText p datum 0 ≠ label datum.
Proof. cbv zeta. repeat split; try reflexivity. discriminate. Qed.

(** The label of a chart with a label component that carries
    [text="custom"]: the component's own text is the label's text. *)
Lemma element_props_precedence_witness :
  let custom := {| ctype := "Label"; cprops := {[ "text" := VStr "custom" ]} |} in
  let p := custom_props [point 1 (VNum 1)] (VArr [VStr "a"]) VUndefined
             VUndefined custom in
  let this := componentWillMount p in
  let c := calculated_with_markers p (VObj ∅) in
  let datum := mkDatum 1 (VNum 1) VUndefined in
  is_nullish (style_markers (calc_style c)) = false ∧
  ∃ labelConfig,
    renderLabel this p c datum 0 (VStr "a") = Ret (CloneElement custom labelConfig) ∧
    labelConfig !! "text" = Some (VStr "custom").
Proof.
  cbv zeta. split; [reflexivity|].
  destruct (element_props_precedence
              (componentWillMount
                 (custom_props [point 1 (VNum 1)] (VArr [VStr "a"]) VUndefined
                    VUndefined
                    {| ctype := "Label"; cprops := {[ "text" := VStr "custom" ]} |}))
              (custom_props [point 1 (VNum 1)] (VArr [VStr "a"]) VUndefined
                 VUndefined
                 {| ctype := "Label"; cprops := {[ "text" := VStr "custom" ]} |})
              (calculated_with_markers
                 (custom_props [point 1 (VNum 1)] (VArr [VStr "a"]) VUndefined
                    VUndefined
                    {| ctype := "Label"; cprops := {[ "text" := VStr "custom" ]} |})
                 (VObj ∅))
              (mkDatum 1 (VNum 1) VUndefined) 0 (VStr "a") "text" eq_refl)
    as (style & labelStyle & markerConfig & labelConfig & _ & _ & _ & Hlabel
        & _ & Htext).
  exists labelConfig. split; [exact Hlabel|].
  rewrite Htext; [reflexivity|].
  unfold Geometry.shared_or_events. rewrite !elem_of_cons, elem_of_nil.
  intros [?|[?|[?|[?|[?|?]]]]]; done.
Defined.

(** The label of a point on a chart with [labels = ["a"]], for a style whose
    [markers] is [{}]. *)
Lemma label_text_and_visibility_witness :
  let p := line_props [point 1 (VNum 1)] (VArr [VStr "a"]) VUndefined in
  let this := componentWillMount p in
  let c := calculated_with_markers p (VObj ∅) in
  let datum := mkDatum 1 (VNum 1) VUndefined in
  dataset c !! 0%nat = Some datum ∧
  is_nullish (y datum) = false ∧
  is_nullish (style_markers (calc_style c)) = false ∧
  ∃ nodes marker labelConfig,
    renderMarkersAndLabels this p c = Ret nodes ∧
    nodes !! 0%nat
    = Some (Some (MarkerGroup "marker-group-0" marker
                    (CloneElement (labelComponent p) labelConfig))) ∧
    labelConfig !! "text" = Some (VStr "a").
Proof.
  cbv zeta. split; [reflexivity|]. split; [reflexivity|]. split; [reflexivity|].
  destruct (label_text_and_visibility
              (componentWillMount
                 (line_props [point 1 (VNum 1)] (VArr [VStr "a"]) VUndefined))
              (calculated_with_markers
                 (line_props [point 1 (VNum 1)] (VArr [VStr "a"]) VUndefined)
                 (VObj ∅))
              0 (mkDatum 1 (VNum 1) VUndefined) eq_refl eq_refl eq_refl)
    as (_ & _ & _ & nodes & marker & Hrun & _ & _ & Hlabel).
  destruct (Hlabel (or_introl eq_refl)) as (labelConfig & Hnode & Htext).
  exists nodes, marker, labelConfig.
  split; [exact Hrun|]. split; [exact Hnode|exact Htext].
Defined.

(** Scenario A, segmented from two different stores. *)
Lemma getDataSegments_deterministic_stable_witness :
  (∃ r1 h1' r2 h2',
      getDataSegments_store 0%nat [DataArray scenarioA] = Some (r1, h1') ∧
      getDataSegments_store 1%nat [RefArray []; DataArray scenarioA] = Some (r2, h2') ∧
      read_segments h1' r1 = Some (getDataSegments scenarioA) ∧
      read_segments h2' r2 = Some (getDataSegments scenarioA)) ∧
  (∀ k, with_key k (concat (getDataSegments scenarioA))
        = with_key k (without_gaps scenarioA)).
Proof.
  apply (getDataSegments_deterministic_stable
           [DataArray scenarioA] [RefArray []; DataArray scenarioA] 0%nat 1%nat scenarioA);
    reflexivity.
Defined.

(** Scenario A, segmented from a store that holds another array too. *)
Lemma getDataSegments_input_unchanged_witness :
  ∃ r h' refs,
    getDataSegments_store 1%nat [RefArray []; DataArray scenarioA] = Some (r, h') ∧
    h' !! 1%nat = Some (DataArray scenarioA) ∧
    (∀ l c, [RefArray []; DataArray scenarioA] !! l = Some c → h' !! l = Some c) ∧
    h' !! r = Some (RefArray refs) ∧
    [RefArray []; DataArray scenarioA] !! r = None ∧
    Forall (fun s => [RefArray []; DataArray scenarioA] !! s = None) refs ∧
    read_segments h' r = Some (getDataSegments scenarioA).
Proof.
  apply (getDataSegments_input_unchanged
           [RefArray []; DataArray scenarioA] 1%nat scenarioA).
  reflexivity.
Defined.

End ConcreteCharts.

Section ConcreteRenders.
Import VictoryLine Plain.
#[local] Existing Instance Plain.helpers.
#[local] Existing Instance Plain.chart.

(** C4, failing input.  [<VictoryLine data={[{x: 1, y: null}]}
    seriesLabel="series"/>]: no segment, so [renderSeriesLabel] reads [x] of
    [undefined] and the render throws.  And the [Label] component, the
    default [labelComponent], throws on props as [VictoryLine] builds them
    (a [style], [x] and [y], no [position]), on props that have a [position]
    ([dy] is not bound), and on props without a [style]. *)
Theorem render_throws_without_a_y :
  render (componentWillMount (line_props [point 1 VNull] VUndefined (VStr "series")))
  = Throw (TypeError "Cannot read property 'x' of null or undefined") ∧
  Label.render ∅
    (<["style" := VObj ∅]>
     (<["x" := VNum 1]> (<["y" := VNum 1]> (<["text" := VStr "a"]> ∅))))
  = Throw (TypeError "Cannot read property 'x' of null or undefined") ∧
  Label.render ∅
    (<["style" := VObj ∅]>
     (<["position" := point 1 (VNum 1)]> (<["text" := VStr "a"]> ∅)))
  = Throw (ReferenceError "dy") ∧
  (∃ msg,
      Label.render ∅ (<["x" := VNum 1]> (<["y" := VNum 1]> (<["text" := VStr "a"]> ∅)))
      = Throw (TypeError msg) ∧
      Label.render ∅ (<["position" := point 1 (VNum 1)]> (<["text" := VStr "a"]> ∅))
      = Throw (TypeError msg)).
Proof.
  split; [|split; [|split]]; [vm_compute; reflexivity..|].
  eexists. split; vm_compute; reflexivity.
Qed.

(** A chart with [animate={{duration: 500}}]. *)
Lemma animate_delegates_to_transition_witness :
  let p := animated (line_props [point 1 (VNum 1)] VUndefined VUndefined)
             (VObj {[ "duration" := VNum 500 ]}) in
  truthy (animate p) = true ∧
  render (componentWillMount p)
  = Ret (VictoryTransition (VObj {[ "duration" := VNum 500 ]})
           ["data"; "domain"; "height"; "padding"; "samples"; "style";
            "width"; "x"; "y"]
           (VictoryLineElement p)).
Proof.
  cbv zeta. split; [reflexivity|].
  apply (animate_delegates_to_transition
           (componentWillMount
              (animated (line_props [point 1 (VNum 1)] VUndefined VUndefined)
                 (VObj {[ "duration" := VNum 500 ]})))).
  reflexivity.
Defined.

(** Scenario B of the specification: unsorted input, a single segment in
    ascending order of [x]. *)
Example scenario_B :
  getDataSegments [mkDatum 3 (VNum 1) VUndefined; mkDatum 1 (VNum 2) VUndefined]
  = [[mkDatum 1 (VNum 2) VUndefined; mkDatum 3 (VNum 1) VUndefined]].
Proof. reflexivity. Qed.

(** Points with the same [x] stay in input order, across a gap too. *)
Example ties_keep_input_order :
  getDataSegments
    [mkDatum 2 (VNum 1) (VStr "first"); mkDatum 1 VNull VUndefined;
     mkDatum 2 (VNum 7) (VStr "second"); mkDatum 0 (VNum 5) VUndefined]
  = [[mkDatum 0 (VNum 5) VUndefined];
     [mkDatum 2 (VNum 1) (VStr "first"); mkDatum 2 (VNum 7) (VStr "second")]].
Proof. reflexivity. Qed.

End ConcreteRenders.

(** * Further properties of the Segmenter *)

Module SegmenterMore.
Import SortFacts SegmenterFacts Geometry.
#[local] Open Scope nat_scope.

Lemma gaps_cons d l :
  filter gap (d :: l) = if isGap d then d :: filter gap l else filter gap l.
Proof.
  unfold gap. rewrite filter_cons. destruct (isGap d); by case_decide.
Qed.

(** The scan pushes one segment per gap. *)
Lemma forEach_scan_length orderedData rest index segments start :
  length (forEach_scan orderedData rest index segments start).1
  = length segments + length (filter gap rest).
Proof.
  revert index segments start.
  induction rest as [|d rest IH]; intros index segments start; simpl.
  - lia.
  - rewrite gaps_cons. destruct (isGap d).
    + rewrite IH, length_app. simpl. lia.
    + apply IH.
Qed.

Lemma raw_segments_length orderedData :
  length (raw_segments orderedData) = length (filter gap orderedData) + 1.
Proof.
  unfold raw_segments. rewrite length_app, forEach_scan_length. simpl. lia.
Qed.

Lemma length_concat_nonempty {A} (ls : list (list A)) :
  Forall (fun s => s ≠ []) ls → length ls ≤ length (concat ls).
Proof.
  induction 1 as [|s ls Hs _ IH]; simpl; [lia|].
  rewrite length_app. destruct s; [done|]. simpl. lia.
Qed.

Lemma without_gaps_perm l l' : l ≡ₚ l' → without_gaps l ≡ₚ without_gaps l'.
Proof. intros Hp. unfold without_gaps. by rewrite Hp. Qed.

Lemma segments_nonempty D : Forall (fun s => s ≠ []) (getDataSegments D).
Proof.
  eapply Forall_impl; [apply getDataSegments_segments|]. by intros s [? _].
Qed.

Lemma filter_sorted (P : datum → Prop) `{∀ d, Decision (P d)} l :
  StronglySorted le_x l → StronglySorted le_x (filter P l).
Proof.
  induction 1 as [|d l Hs IH Hall]; [constructor|].
  rewrite filter_cons. case_decide; [|done].
  constructor; [done|]. apply Forall_forall. intros e He.
  apply list_elem_of_filter in He as [_ He].
  rewrite Forall_forall in Hall. by apply Hall.
Qed.

Lemma concat_sorted D : StronglySorted le_x (concat (getDataSegments D)).
Proof.
  rewrite getDataSegments_concat. apply filter_sorted, sortBy_x_sorted.
Qed.

(** A sorted list is its own stable sort. *)
Lemma sortBy_x_sorted_id l : StronglySorted le_x l → sortBy_x l = l.
Proof. intros Hs. symmetry. by apply sortBy_x_unique. Qed.

Lemma forEach_scan_no_gap orderedData rest index segments start :
  Forall nongap rest →
  forEach_scan orderedData rest index segments start = (segments, start).
Proof.
  intros Hall. revert index.
  induction Hall as [|d rest Hd _ IH]; intros index; simpl; [done|].
  unfold nongap in Hd. rewrite Hd. apply IH.
Qed.

Lemma getDataSegments_sorted_no_gap l :
  StronglySorted le_x l → Forall nongap l → l ≠ [] → getDataSegments l = [l].
Proof.
  intros Hs Hall Hne. rewrite getDataSegments_raw, sortBy_x_sorted_id by done.
  unfold raw_segments. rewrite forEach_scan_no_gap by done. simpl.
  rewrite slice_to_end. simpl. rewrite filter_cons, filter_nil.
  case_decide; [done|]. destruct l; simpl in *; [done|lia].
Qed.

Lemma segment_sorted D s : s ∈ getDataSegments D → StronglySorted le_x s.
Proof.
  intros Hin. pose proof (concat_sorted D) as Hs.
  induction (getDataSegments D) as [|t ts IH]; [by apply elem_of_nil in Hin|].
  simpl in Hs. apply StronglySorted_app in Hs as (_ & Ht & Hts).
  apply elem_of_cons in Hin as [->|Hin]; [done|by apply IH].
Qed.

(** The scan and the run accumulation agree, from any point of the scan. *)
Lemma forEach_scan_runs orderedData rest pre segments start :
  orderedData = pre ++ rest → start ≤ length pre →
  (forEach_scan orderedData rest (length pre) segments start).1
    ++ [slice orderedData
          (forEach_scan orderedData rest (length pre) segments start).2
          (length orderedData)]
  = segments ++ runs (drop start pre) rest.
Proof.
  revert pre segments start.
  induction rest as [|d rest IH]; intros pre segments start Heq Hstart; simpl.
  - rewrite (right_id_L [] (++)) in Heq. subst. by rewrite slice_to_end.
  - assert (orderedData = (pre ++ [d]) ++ rest) as Heq'.
    { by rewrite <- (assoc_L (++)). }
    assert (S (length pre) = length (pre ++ [d])) as Hlen.
    { rewrite length_app. simpl. lia. }
    destruct (isGap d).
    + rewrite Hlen.
      replace (length pre + 1) with (length (pre ++ [d])) by lia.
      rewrite IH by (done || lia).
      rewrite drop_all, <- (assoc_L (++)). simpl. do 2 f_equal.
      rewrite Heq. apply slice_prefix.
    + rewrite Hlen, IH by (done || (rewrite length_app; simpl; lia)).
      by rewrite drop_app_le.
Qed.

Lemma with_key_absent k l : k ∉ x <$> l → with_key k l = [].
Proof.
  induction l as [|d l IH]; [done|].
  rewrite fmap_cons, not_elem_of_cons, with_key_cons. intros [Hd Hl].
  rewrite decide_False by done. by apply IH.
Qed.

Lemma with_key_le_1 k l : NoDup (x <$> l) → length (with_key k l) ≤ 1.
Proof.
  induction l as [|d l IH]; [simpl; lia|].
  rewrite fmap_cons, NoDup_cons, with_key_cons. intros [Hd Hnd].
  case_decide as Hk; [|by apply IH]. simpl.
  rewrite with_key_absent; [simpl; lia|]. by rewrite <- Hk.
Qed.

Lemma sortBy_x_perm_distinct D D' :
  D ≡ₚ D' → NoDup (x <$> D) → sortBy_x D = sortBy_x D'.
Proof.
  intros Hp Hnd.
  apply sorted_by_keys; [apply sortBy_x_sorted..|].
  intros k. rewrite !sortBy_x_stable.
  assert (with_key k D ≡ₚ with_key k D') as Hk.
  { unfold with_key. by rewrite Hp. }
  pose proof (with_key_le_1 k D Hnd) as Hlen.
  destruct (with_key k D) as [|a [|b t]]; simpl in Hlen; [| |lia].
  - by apply Permutation_nil_l in Hk.
  - by apply Permutation_singleton_l in Hk.
Qed.

End SegmenterMore.

Section SegmenterExtras.
Import SortFacts SegmenterFacts SegmenterMore Geometry.
#[local] Open Scope nat_scope.

(** X1.  The Segmenter returns at most one segment more than the dataset has
    gaps, and at most as many segments as the dataset has points that are
    not gaps. *)
Theorem getDataSegments_count (D : list datum) :
  length (getDataSegments D) ≤ length (filter gap D) + 1 ∧
  length (getDataSegments D) ≤ length (without_gaps D).
Proof.
  split.
  - rewrite getDataSegments_raw.
    etransitivity; [apply length_filter|].
    rewrite raw_segments_length.
    assert (filter gap (sortBy_x D) ≡ₚ filter gap D) as ->; [|done].
    by rewrite sortBy_x_perm.
  - etransitivity; [apply length_concat_nonempty, segments_nonempty|].
    rewrite getDataSegments_concat.
    by rewrite (without_gaps_perm _ _ (sortBy_x_perm D)).
Qed.

(** X2.  The points of the segments, read segment after segment, ascend in
    [x]: every segment is sorted, and every point of a segment has an [x] at
    most that of every point of a later segment. *)
Theorem getDataSegments_ascending (D : list datum) :
  StronglySorted le_x (concat (getDataSegments D)) ∧
  Forall (StronglySorted le_x) (getDataSegments D).
Proof.
  split; [apply concat_sorted|].
  apply Forall_forall. intros s Hs. by eapply segment_sorted.
Qed.

(** X3.  A dataset without a gap gives one segment, the whole dataset sorted
    by [x]; the empty dataset gives no segment. *)
Theorem getDataSegments_without_gap (D : list datum) :
  Forall (fun d => isGap d = false) D →
  getDataSegments D = match D with [] => [] | _ => [sortBy_x D] end.
Proof.
  intros Hall. destruct D as [|d D]; [done|].
  assert (sortBy_x (d :: D) ≠ []) as Hne.
  { intros Hnil. pose proof (sortBy_x_length (d :: D)) as Hlen.
    rewrite Hnil in Hlen. simpl in Hlen. lia. }
  assert (Forall nongap (sortBy_x (d :: D))) as Hsorted_all.
  { by rewrite sortBy_x_perm. }
  rewrite getDataSegments_raw. unfold raw_segments.
  generalize dependent (sortBy_x (d :: D)). intros o Hne Ho.
  rewrite forEach_scan_no_gap by done. simpl fst. simpl snd.
  rewrite slice_to_end, drop_0. simpl app. rewrite filter_cons, filter_nil.
  case_decide as Hlen; [done|].
  destruct o; simpl in *; [done|lia].
Qed.

(** X4.  Segmenting a segment changes nothing: run on one of the segments it
    returned, the Segmenter returns that segment alone. *)
Theorem getDataSegments_of_segment (D : list datum) (s : list datum) :
  s ∈ getDataSegments D → getDataSegments s = [s].
Proof.
  intros Hin. pose proof (getDataSegments_segments D) as Hall.
  rewrite Forall_forall in Hall. destruct (Hall s Hin) as [Hne Hgaps].
  apply getDataSegments_sorted_no_gap; [by eapply segment_sorted|done|done].
Qed.

(** X5.  The index-and-slice scan computes the runs between gaps: the
    segments are the non-empty runs of the sorted dataset, a run being closed
    by a gap or by the end of the data. *)
Theorem getDataSegments_runs (D : list datum) :
  getDataSegments D
  = filter (fun s : list datum => 0 < length s) (runs [] (sortBy_x D)).
Proof.
  rewrite getDataSegments_raw. f_equal. unfold raw_segments.
  apply (forEach_scan_runs (sortBy_x D) (sortBy_x D) [] [] 0); [done|simpl; lia].
Qed.

(** X6.  When no two points share an [x], the order in which the points are
    given does not matter: a reordered dataset gives the same segments. *)
Theorem getDataSegments_order_independent (D D' : list datum) :
  D ≡ₚ D' → NoDup (x <$> D) → getDataSegments D = getDataSegments D'.
Proof.
  intros Hp Hnd. rewrite !getDataSegments_raw.
  by rewrite (sortBy_x_perm_distinct D D').
Qed.

End SegmenterExtras.

(** * Further properties of the styles *)

Section StyleExtras.
Context `{HelpersAPI}.
Import VictoryLine LodashFacts Geometry StyleFacts.

(** X7.  The parent style that [getStyles] returns always has the width
    ["100%"] and the height ["auto"]: a [width] or [height] in the caller's
    [style.parent] is ignored.  Every other property of the caller's
    [style.parent] is taken over as it is. *)
Theorem getStyles_parent (p : Props) :
  get (style_parent (getStyles p)) "width" = VStr "100%" ∧
  get (style_parent (getStyles p)) "height" = VStr "auto" ∧
  ∀ k, k ≠ "width" → k ≠ "height" →
       style_parent (getStyles p) !! k
       = own_props (getv (or_else (style p) (VObj ∅)) "parent") !! k.
Proof.
  rewrite getStyles_parent_eq. split; [|split].
  - by rewrite get_defaults_two.
  - by rewrite get_defaults_two.
  - intros k Hw Hh.
    rewrite lookup_defaults_two, defaultStyles_parent. simpl (own_props VUndefined).
    rewrite !lookup_insert_ne, !lookup_empty by done.
    by destruct (own_props _ !! k) as [[]|].
Qed.

(** X8.  In the data and the labels style that [getStyles] returns, a
    property reads as the caller's [style.data] (or [style.labels]) has it
    unless that is [undefined], and as the built-in default otherwise.  The
    line style has no defaults: it reads as the caller's [style.line]. *)
Theorem getStyles_defaults (p : Props) (k : string) :
  let style := or_else (style p) (VObj ∅) in
  get (style_data (getStyles p)) k
  = (if is_undefined (getv (getv style "data") k)
     then getv (get defaultStyles "data") k
     else getv (getv style "data") k) ∧
  get (style_labels (getStyles p)) k
  = (if is_undefined (getv (getv style "labels") k)
     then getv (get defaultStyles "labels") k
     else getv (getv style "labels") k) ∧
  get (style_line (getStyles p)) k = getv (getv style "line") k.
Proof.
  cbv zeta. split; [apply getStyles_data_get|].
  split; [apply getStyles_labels_get|apply getStyles_line_get].
Qed.

(** X9.  The style [getLabelStyle] evaluates keeps every property of the
    labels style; its [fill] is the labels style's unless that is
    [undefined], and then [style.line.stroke]; its [padding] is the labels
    style's unless that is [undefined], and then [0] (a padding of [null],
    [false] or [""] is kept as it is). *)
Theorem getLabelStyle_properties (st : styles) (datum : value) :
  ∃ labelStyle : obj,
    getLabelStyle st datum = evaluateStyle (VObj labelStyle) datum ∧
    (∀ k, k ≠ "fill" → k ≠ "padding" → labelStyle !! k = style_labels st !! k) ∧
    get labelStyle "fill"
    = (if is_undefined (get (style_labels st) "fill")
       then get (style_line st) "stroke"
       else get (style_labels st) "fill") ∧
    get labelStyle "padding"
    = (if is_undefined (get (style_labels st) "padding")
       then VNum 0
       else get (style_labels st) "padding").
Proof.
  eexists. split; [apply getLabelStyle_object|].
  split; [intros k; apply labelStyle_other|].
  split; [apply labelStyle_fill|apply labelStyle_padding].
Qed.

(** X10.  From the props to the label: with the styles [getStyles] builds,
    the label's padding is the caller's [style.labels.padding] unless that is
    [undefined], and then the default [5], never [0]; its fill is the caller's
    [style.labels.fill] unless that is [undefined], and then the caller's
    [style.line.stroke]; its text anchor defaults to ["start"]. *)
Theorem label_style_from_props (p : Props) (datum : value) :
  let style := or_else (style p) (VObj ∅) in
  ∃ labelStyle : obj,
    getLabelStyle (getStyles p) datum = evaluateStyle (VObj labelStyle) datum ∧
    get labelStyle "padding"
    = (if is_undefined (getv (getv style "labels") "padding")
       then VNum 5
       else getv (getv style "labels") "padding") ∧
    get labelStyle "fill"
    = (if is_undefined (getv (getv style "labels") "fill")
       then getv (getv style "line") "stroke"
       else getv (getv style "labels") "fill") ∧
    get labelStyle "textAnchor"
    = (if is_undefined (getv (getv style "labels") "textAnchor")
       then VStr "start"
       else getv (getv style "labels") "textAnchor").
Proof.
  cbv zeta. eexists. split; [apply getLabelStyle_object|].
  split; [|split].
  - rewrite labelStyle_padding, getStyles_labels_get.
    destruct (is_undefined (getv _ "padding")) eqn:E; [done|].
    by rewrite E.
  - rewrite labelStyle_fill, getStyles_labels_get, getStyles_line_get.
    destruct (is_undefined (getv _ "fill")) eqn:E; [done|].
    by rewrite E.
  - unfold get at 1. rewrite labelStyle_other by done.
    fold (get (style_labels (getStyles p)) "textAnchor").
    by rewrite getStyles_labels_get.
Qed.

End StyleExtras.

(** * Further properties of the rendered elements *)

Module RenderMore.
Import VictoryLine LodashFacts SortFacts SegmenterFacts SegmenterMore Geometry.
#[local] Open Scope nat_scope.

Lemma last_concat_nonempty {A} (ls : list (list A)) :
  Forall (fun s => s ≠ []) ls →
  last (concat ls) = last ls ≫= last.
Proof.
  induction ls as [|s ls IH] using rev_ind; [done|].
  rewrite Forall_app, Forall_singleton. intros [_ Hs].
  rewrite concat_app, last_snoc. simpl. rewrite (right_id_L [] (++)).
  rewrite last_app. destruct (last s) eqn:E; [done|].
  apply last_None in E. done.
Qed.

Lemma last_is_greatest (l : list datum) (d : datum) :
  StronglySorted le_x l → last l = Some d → Forall (fun e => (x e ≤ x d)%Z) l.
Proof.
  intros Hs Hlast. apply last_Some in Hlast as [l' ->].
  apply StronglySorted_app in Hs as (Hle & _ & _).
  apply Forall_app. split.
  - apply Forall_forall. intros e He. apply (Hle e d He). left.
  - apply Forall_singleton. lia.
Qed.

Lemma without_gaps_nil_gaps (l : list datum) :
  without_gaps l = [] → Forall gap l.
Proof.
  induction l as [|d l IH]; [constructor|].
  rewrite without_gaps_cons. unfold gap. destruct (isGap d) eqn:Hd; [|done].
  intros Hl. constructor; [done|by apply IH].
Qed.

(** Every point is a gap, or some point is not. *)
Lemma gaps_or_nongap (l : list datum) : Forall gap l ∨ Exists nongap l.
Proof.
  induction l as [|d l [IH|IH]]; [by left| |by right; apply Exists_cons_tl].
  destruct (isGap d) eqn:Hd.
  - left. by constructor.
  - right. by apply Exists_cons_hd.
Qed.

(** The last point of the last segment is the last point of the sorted
    dataset that is not a gap. *)
Lemma last_point (D : list datum) :
  last (getDataSegments D) ≫= last = last (without_gaps (sortBy_x D)).
Proof.
  rewrite <- getDataSegments_concat.
  symmetry. apply last_concat_nonempty, segments_nonempty.
Qed.

Section WithChart.
Context `{ChartAPI}.

(** The point [renderSeriesLabel] reads: the last point of the last
    segment, [undefined] without a segment. *)
Lemma renderSeriesLabel_cases (this : This) (p : Props) (c : calculatedProps) :
  renderSeriesLabel this p c
  = if truthy (seriesLabel p)
    then match last (dataSegments c) ≫= last with
         | Some d =>
             labelStyle ← getLabelStyle (calc_style c) VUndefined;
             Ret (Some (LineLabel "line-label"
                          (getEvents this (get (events p) "labels") "labels")
                          (dataset c)
                          (scale_x (scale c) (VNum (x d)))
                          (scale_y (scale c) (y d))
                          (seriesLabel p)
                          labelStyle))
         | None => Throw (TypeError "Cannot read property 'x' of null or undefined")
         end
    else Ret None.
Proof.
  unfold renderSeriesLabel. destruct (truthy (seriesLabel p)); [|done].
  simpl negb. cbv iota.
  destruct (last (dataSegments c)) as [s|]; [|done]. simpl.
  destruct (last s) as [d|]; [|done]. simpl.
  change (getv (datum_value d) "x") with (VNum (x d)).
  by change (getv (datum_value d) "y") with (y d).
Qed.

Lemma renderLine_data (this : This) (p : Props) (c : calculatedProps) :
  segment_data <$> renderLine this p c = dataSegments c.
Proof.
  apply list_eq. intros i. unfold renderLine.
  rewrite list_lookup_fmap, list_lookup_imap.
  by destruct (dataSegments c !! i).
Qed.

Lemma renderLine_keys (this : This) (p : Props) (c : calculatedProps) :
  segment_key <$> renderLine this p c
  = (fun i => "line-segment-" ++ pretty i)%string <$> seq 0 (length (dataSegments c)).
Proof.
  unfold renderLine. rewrite fmap_imap.
  rewrite <- (imap_seq_0 (dataSegments c)). by apply imap_ext.
Qed.

(** [getStyles] builds no [markers] style. *)
Lemma getStyles_markers (p : Props) : style_markers (getStyles p) = VUndefined.
Proof. reflexivity. Qed.


End WithChart.

End RenderMore.

Section RenderExtras.
Context `{ChartAPI}.
Import VictoryLine LodashFacts SortFacts SegmenterFacts SegmenterMore Geometry
  RenderMore.
#[local] Open Scope nat_scope.

(** X11.  [renderLine] returns one [LineSegment] per data segment, in order,
    each drawing exactly the points of its segment with the data style, the
    [interpolation] prop and the chart's scale; the keys of the elements are
    pairwise distinct. *)
Theorem renderLine_segments (this : This) (p : Props) (c : calculatedProps) :
  segment_data <$> renderLine this p c = dataSegments c ∧
  NoDup (segment_key <$> renderLine this p c) ∧
  Forall (fun e => ∃ lp ev,
            e = LineSegment lp ev ∧
            line_style lp = style_data (calc_style c) ∧
            line_interpolation lp = interpolation p ∧
            line_scale lp = scale c)
    (renderLine this p c).
Proof.
  split; [apply renderLine_data|]. split.
  - rewrite renderLine_keys. apply NoDup_fmap_2; [|apply NoDup_seq].
    intros i j Heq. apply (inj _) in Heq. by apply (inj pretty).
  - apply Forall_forall. intros e He.
    apply list_elem_of_lookup in He as [i Hi]. unfold renderLine in Hi.
    rewrite list_lookup_imap in Hi.
    destruct (dataSegments c !! i) as [s|]; [|done].
    injection Hi as <-. by eexists _, _.
Qed.

(** X12.  With the styles that [getStyles] builds, whatever the props,
    [renderMarkersAndLabels] throws a [TypeError] on every dataset that has a
    point with a [y]: the marker's style is evaluated from [style.markers],
    which [getStyles] does not build. *)
Theorem renderMarkersAndLabels_throws (this : This) (p q : Props)
    (c : calculatedProps) :
  calc_style c = getStyles q →
  Exists (fun d => isGap d = false) (dataset c) →
  ∃ msg, renderMarkersAndLabels this p c = Throw (TypeError msg).
Proof.
  intros Hstyle Hex. apply renderMarkersAndLabels_throws_nongap; [|done].
  by rewrite Hstyle.
Qed.

(** X15.  With a truthy [seriesLabel] and at least one point that is not a
    gap, the series label is placed at the scaled coordinates of the last
    point of the sorted dataset that is not a gap, with the label style
    evaluated on no datum; no such point has a greater [x]. *)
Theorem renderSeriesLabel_position (this : This) (p : Props)
    (c : calculatedProps) (d : datum) :
  truthy (seriesLabel p) = true →
  dataSegments c = getDataSegments (dataset c) →
  last (without_gaps (sortBy_x (dataset c))) = Some d →
  ∃ labelStyle,
    getLabelStyle (calc_style c) VUndefined = Ret labelStyle ∧
    renderSeriesLabel this p c
    = Ret (Some (LineLabel "line-label"
                   (getEvents this (get (events p) "labels") "labels")
                   (dataset c)
                   (scale_x (scale c) (VNum (x d)))
                   (scale_y (scale c) (y d))
                   (seriesLabel p)
                   labelStyle)) ∧
    Forall (fun e => isGap e = false → (x e ≤ x d)%Z) (dataset c).
Proof.
  intros Hlabel Hsegs Hlast.
  destruct (getLabelStyle_returns (calc_style c) VUndefined)
    as (labelStyle & Hstyle & _).
  exists labelStyle. split; [exact Hstyle|]. split.
  - by rewrite renderSeriesLabel_cases, Hlabel, Hsegs, last_point, Hlast, Hstyle.
  - assert (Forall (fun e => (x e ≤ x d)%Z) (without_gaps (sortBy_x (dataset c))))
      as Hmax.
    { apply last_is_greatest; [|done]. apply filter_sorted, sortBy_x_sorted. }
    apply Forall_forall. intros e He Hgap.
    rewrite Forall_forall in Hmax. apply Hmax.
    apply list_elem_of_filter. split; [done|]. by rewrite sortBy_x_perm.
Qed.

End RenderExtras.

(** * Where rendering throws *)

Section ErrorExtras.
Context `{ChartAPI}.
Import VictoryLine LodashFacts SortFacts SegmenterFacts SegmenterMore MapFacts
  Geometry RenderMore.
#[local] Open Scope nat_scope.

(** X16.  [renderData] throws a [TypeError] when some point has a [y] and
    the style has no [markers] (the marker's style cannot be evaluated), and
    when no point has a [y] and [seriesLabel] is truthy (there is no last
    point to place the series label at). *)
Theorem renderData_throws (this : This) (p : Props) (st : styles) :
  (Exists (fun d => isGap d = false) (getData p) ∧
   is_nullish (style_markers st) = true) ∨
  (Forall (fun d => isGap d = true) (getData p) ∧
   truthy (seriesLabel p) = true) →
  ∃ msg, renderData this p st = Throw (TypeError msg).
Proof.
  intros [[Hex Hstyle]|[Hall Hlabel]].
  - by apply renderData_throws_nongap.
  - eexists. by apply renderData_throws_all_gaps.
Qed.


(** X18.  Without [animate], [render] throws a [TypeError] on every chart
    that has a point with a [y] (the style [getStyles] builds has no
    [markers]), and on every chart with a truthy [seriesLabel] (if no point
    has a [y], there is no last point). *)
Theorem render_throws (this : This) :
  truthy (animate (props this)) = false →
  Exists (fun d => isGap d = false) (getData (props this)) ∨
  truthy (seriesLabel (props this)) = true →
  ∃ msg, render this = Throw (TypeError msg).
Proof.
  intros Ha Hcase. rewrite render_not_animated by done.
  assert (∃ msg, renderData this (props this) (getStyles (props this))
                 = Throw (TypeError msg)) as [msg Hmsg].
  { destruct (gaps_or_nongap (getData (props this))) as [Hall|Hex].
    - destruct Hcase as [Hex|Hlabel].
      + apply Exists_exists in Hex as (d & Hd & Hng).
        rewrite Forall_forall in Hall. specialize (Hall d Hd).
        unfold gap in Hall. congruence.
      + eexists. by apply renderData_throws_all_gaps.
    - by apply renderData_throws_nongap. }
  exists msg. by rewrite Hmsg.
Qed.

(** X19.  The [Label] component throws a [TypeError] when its [style] prop
    is [null] or [undefined]; with a style, it throws a [TypeError] when its
    [position] prop is [null] or [undefined]; with both, it throws a
    [ReferenceError] when the global object lacks one of [dy], [textAnchor]
    and [verticalAnchor]. *)
Theorem Label_render_throws (globals props : obj) :
  (is_nullish (get props "style") = true →
   ∃ msg, Label.render globals props = Throw (TypeError msg)) ∧
  (is_nullish (get props "style") = false →
   is_nullish (get props "position") = true →
   Label.render globals props
   = Throw (TypeError "Cannot read property 'x' of null or undefined")) ∧
  (is_nullish (get props "style") = false →
   is_nullish (get props "position") = false →
   ∀ name, name ∈ ["dy"; "textAnchor"; "verticalAnchor"] →
           globals !! name = None →
           ∃ unbound, unbound ∈ ["dy"; "textAnchor"; "verticalAnchor"] ∧
                      Label.render globals props = Throw (ReferenceError unbound)).
Proof.
  split; [|split].
  - intros Hstyle.
    destruct (evaluateStyle_nullish _ (get props "datum") Hstyle) as [msg Hmsg].
    exists msg. unfold Label.render. by rewrite Hmsg.
  - intros Hstyle Hpos.
    destruct (evaluateStyle_returns _ (get props "datum") Hstyle)
      as (labelStyle & Hev & _).
    unfold Label.render, getprop. by rewrite Hev, Hpos.
  - intros Hstyle Hpos name Hname Hunbound.
    destruct (evaluateStyle_returns _ (get props "datum") Hstyle)
      as (labelStyle & Hev & Hls).
    assert (∀ k, getprop labelStyle k = Ret (getv labelStyle k)) as Hread.
    { intros k. unfold getprop. by rewrite Hls. }
    assert (∀ k, getprop (get props "position") k
                 = Ret (getv (get props "position") k)) as Hposition.
    { intros k. unfold getprop. by rewrite Hpos. }
    unfold Label.render, Label.free_identifier.
    rewrite Hev. simpl. rewrite !Hposition. simpl. rewrite !Hread.
    destruct (globals !! "dy") as [dy|] eqn:Hdy;
      [|exists "dy"; split; [by repeat constructor|done]].
    assert (∀ (b : bool) (v w : value),
              (if b then mret v else Ret w) = Ret (if b then v else w)) as Hif
      by (by intros []).
    simpl. rewrite Hif. simpl.
    destruct (globals !! "textAnchor") as [ta|] eqn:Hta;
      [|exists "textAnchor"; split; [by repeat constructor|done]].
    simpl. rewrite Hif. simpl.
    destruct (globals !! "verticalAnchor") as [va|] eqn:Hva;
      [|exists "verticalAnchor"; split; [by repeat constructor|done]].
    rewrite !elem_of_cons, elem_of_nil in Hname.
    destruct Hname as [->|[->|[->|[]]]]; congruence.
Qed.

(** X20.  The label that [renderMarkersAndLabels] builds with the default
    label component, [<Label/>], and without a stored override has a [style]
    and no [position] ([VictoryLine] passes [x] and [y]); so the [Label]
    component throws on its props, whatever [key] and [ref] become. *)
Theorem default_label_throws (this : This) (p : Props) (c : calculatedProps)
    (datum : datum) (index : nat) (text : value) :
  cprops (labelComponent p) = ∅ →
  labelsState (state this) !! index = None →
  ∃ labelConfig,
    renderLabel this p c datum index text
    = Ret (CloneElement (labelComponent p) labelConfig) ∧
    is_nullish (get labelConfig "style") = false ∧
    get labelConfig "position" = VUndefined ∧
    ∀ globals props,
      get props "style" = get labelConfig "style" →
      get props "position" = get labelConfig "position" →
      Label.render globals props
      = Throw (TypeError "Cannot read property 'x' of null or undefined").
Proof.
  intros Hcomponent Hstate.
  destruct (renderLabel_returns this p c datum index text)
    as (labelStyle & lp & lev & Hls & -> & Hlabel).
  destruct (getLabelStyle_returns (calc_style c) (datum_value datum))
    as (labelStyle' & Hls' & Hnull).
  rewrite Hls in Hls'. apply Ret_inj in Hls' as <-.
  eexists. split; [exact Hlabel|].
  assert (∀ k, k ≠ "events" → sharedProps c datum index !! k = None →
               assign
                 (assign (labelLiteral labelStyle index text)
                    [VObj (cprops (labelComponent p));
                     VObj (sharedProps c datum index);
                     at_index (labelsState (state this)) index])
                 [VObj {[ "events" := lev ]}] !! k
               = labelLiteral labelStyle index text !! k) as Hlook.
  { intros k Hk Hshared. rewrite label_config_lookup by done.
    unfold at_index. rewrite Hstate, Hcomponent. simpl.
    by rewrite !lookup_empty. }
  assert (get (assign
                 (assign (labelLiteral labelStyle index text)
                    [VObj (cprops (labelComponent p));
                     VObj (sharedProps c datum index);
                     at_index (labelsState (state this)) index])
                 [VObj {[ "events" := lev ]}]) "style" = labelStyle) as Hstyle.
  { unfold get. rewrite Hlook; [|done|].
    - unfold labelLiteral. do 4 (rewrite lookup_insert_ne by done).
      by rewrite lookup_insert_eq.
    - unfold sharedProps. by rewrite !lookup_insert_ne, lookup_empty. }
  assert (get (assign
                 (assign (labelLiteral labelStyle index text)
                    [VObj (cprops (labelComponent p));
                     VObj (sharedProps c datum index);
                     at_index (labelsState (state this)) index])
                 [VObj {[ "events" := lev ]}]) "position" = VUndefined) as Hpos.
  { unfold get. rewrite Hlook; [|done|].
    - unfold labelLiteral. by rewrite !lookup_insert_ne, lookup_empty.
    - unfold sharedProps. by rewrite !lookup_insert_ne, lookup_empty. }
  split; [by rewrite Hstyle|]. split; [exact Hpos|].
  intros globals props Hs Hp. rewrite Hstyle in Hs. rewrite Hpos in Hp.
  destruct (evaluateStyle_returns labelStyle (get props "datum") Hnull)
    as (evaluated & Hev & _).
  unfold Label.render, getprop. by rewrite Hs, Hev, Hp.
Qed.

End ErrorExtras.

(** * The further properties on concrete charts *)

Section ConcreteExtras.
Import VictoryLine Plain Geometry.
#[local] Existing Instance Plain.helpers.
#[local] Existing Instance Plain.chart.

(** Two points without a gap: one segment. *)
Lemma getDataSegments_without_gap_witness :
  getDataSegments [mkDatum 3 (VNum 1) VUndefined; mkDatum 1 (VNum 2) VUndefined]
  = [sortBy_x [mkDatum 3 (VNum 1) VUndefined; mkDatum 1 (VNum 2) VUndefined]].
Proof.
  apply (getDataSegments_without_gap
           [mkDatum 3 (VNum 1) VUndefined; mkDatum 1 (VNum 2) VUndefined]).
  repeat constructor.
Defined.

(** The first segment of Scenario A, segmented again. *)
Lemma getDataSegments_of_segment_witness :
  getDataSegments [mkDatum 1 (VNum 1) VUndefined] = [[mkDatum 1 (VNum 1) VUndefined]].
Proof.
  apply (getDataSegments_of_segment scenarioA [mkDatum 1 (VNum 1) VUndefined]).
  vm_compute. left.
Defined.

(** Scenario A given in another order. *)
Lemma getDataSegments_order_independent_witness :
  getDataSegments scenarioA
  = getDataSegments [mkDatum 3 (VNum 3) VUndefined; mkDatum 1 (VNum 1) VUndefined;
                     mkDatum 2 VNull VUndefined].
Proof.
  apply (getDataSegments_order_independent scenarioA
           [mkDatum 3 (VNum 3) VUndefined; mkDatum 1 (VNum 1) VUndefined;
            mkDatum 2 VNull VUndefined]).
  - unfold scenarioA.
    etransitivity; [apply perm_skip, Permutation_swap|apply Permutation_swap].
  - apply (bool_decide_unpack _). reflexivity.
Defined.

(** Scenario A with the styles of a chart without a [style] prop. *)
Lemma renderMarkersAndLabels_throws_witness :
  let p := line_props [point 1 (VNum 1); point 2 VNull; point 3 (VNum 3)]
             VUndefined VUndefined in
  ∃ msg,
    renderMarkersAndLabels (componentWillMount p) p (calculated p)
    = Throw (TypeError msg).
Proof.
  cbv zeta.
  apply (renderMarkersAndLabels_throws
           (componentWillMount
              (line_props [point 1 (VNum 1); point 2 VNull; point 3 (VNum 3)]
                 VUndefined VUndefined))
           (line_props [point 1 (VNum 1); point 2 VNull; point 3 (VNum 3)]
              VUndefined VUndefined)
           (line_props [point 1 (VNum 1); point 2 VNull; point 3 (VNum 3)]
              VUndefined VUndefined)
           (calculated
              (line_props [point 1 (VNum 1); point 2 VNull; point 3 (VNum 3)]
                 VUndefined VUndefined))).
  - reflexivity.
  - apply Exists_cons_hd. reflexivity.
Defined.

(** Scenario A with a series label: the label sits at the point [x = 3]. *)
Lemma renderSeriesLabel_position_witness :
  let p := line_props [point 1 (VNum 1); point 2 VNull; point 3 (VNum 3)]
             VUndefined (VStr "series") in
  let this := componentWillMount p in
  ∃ labelStyle,
    getLabelStyle (calc_style (calculated p)) VUndefined = Ret labelStyle ∧
    renderSeriesLabel this p (calculated p)
    = Ret (Some (LineLabel "line-label"
                   (getEvents this (get (events p) "labels") "labels")
                   (dataset (calculated p))
                   (VNum 3) (VNum 3) (VStr "series")
                   labelStyle)) ∧
    Forall (fun e => isGap e = false → (x e ≤ 3)%Z) (dataset (calculated p)).
Proof.
  cbv zeta.
  apply (renderSeriesLabel_position
           (componentWillMount
              (line_props [point 1 (VNum 1); point 2 VNull; point 3 (VNum 3)]
                 VUndefined (VStr "series")))
           (line_props [point 1 (VNum 1); point 2 VNull; point 3 (VNum 3)]
              VUndefined (VStr "series"))
           (calculated
              (line_props [point 1 (VNum 1); point 2 VNull; point 3 (VNum 3)]
                 VUndefined (VStr "series")))
           (mkDatum 3 (VNum 3) VUndefined));
    reflexivity.
Defined.

(** Scenario A, rendered with the styles [getStyles] builds. *)
Lemma renderData_throws_witness :
  let p := line_props [point 1 (VNum 1); point 2 VNull; point 3 (VNum 3)]
             VUndefined VUndefined in
  ∃ msg, renderData (componentWillMount p) p (getStyles p) = Throw (TypeError msg).
Proof.
  cbv zeta.
  apply (renderData_throws
           (componentWillMount
              (line_props [point 1 (VNum 1); point 2 VNull; point 3 (VNum 3)]
                 VUndefined VUndefined))
           (line_props [point 1 (VNum 1); point 2 VNull; point 3 (VNum 3)]
              VUndefined VUndefined)).
  left. split; [|reflexivity]. apply Exists_cons_hd. reflexivity.
Defined.


(** [<VictoryLine data={[{x: 1, y: 1}]}/>] *)
Lemma render_throws_witness :
  ∃ msg,
    render (componentWillMount (line_props [point 1 (VNum 1)] VUndefined VUndefined))
    = Throw (TypeError msg).
Proof.
  apply (render_throws
           (componentWillMount (line_props [point 1 (VNum 1)] VUndefined VUndefined))).
  - reflexivity.
  - left. apply Exists_cons_hd. reflexivity.
Defined.

(** The label of a point of a freshly mounted chart with [labels =
    ["a"]]. *)
Lemma default_label_throws_witness :
  let p := line_props [point 1 (VNum 1)] (VArr [VStr "a"]) VUndefined in
  ∃ labelConfig,
    renderLabel (componentWillMount p) p (calculated p)
      (mkDatum 1 (VNum 1) VUndefined) 0 (VStr "a")
    = Ret (CloneElement (labelComponent p) labelConfig) ∧
    Label.render ∅ (delete "key" labelConfig)
    = Throw (TypeError "Cannot read property 'x' of null or undefined").
Proof.
  cbv zeta.
  destruct (default_label_throws
              (componentWillMount
                 (line_props [point 1 (VNum 1)] (VArr [VStr "a"]) VUndefined))
              (line_props [point 1 (VNum 1)] (VArr [VStr "a"]) VUndefined)
              (calculated
                 (line_props [point 1 (VNum 1)] (VArr [VStr "a"]) VUndefined))
              (mkDatum 1 (VNum 1) VUndefined) 0 (VStr "a") eq_refl eq_refl)
    as (labelConfig & Hlabel & _ & _ & Hthrows).
  exists labelConfig. split; [exact Hlabel|].
  apply Hthrows; unfold get; by rewrite lookup_delete_ne.
Defined.

End ConcreteExtras.
